(** * Stream cache and cache manager of [internal/cache]

    A shallow embedding of the generic stream cache ([streamCache[T]]), its
    value types ([CacheConfig], [Filter], [Query], [CacheStats],
    [CacheResult]) and the lifecycle [Manager], followed by the properties
    of the specification that are stated about them.

    Conventions of the embedding.
    - Go's [int], [int64] and [time.Duration] are [Z]; arithmetic that Go
      performs on 64 bits is wrapped with [wrap64].
    - [time.Time] is a [Z]: nanoseconds since the Unix epoch.  Clock
      readings ([time.Now()]) are inputs of the operations that take them.
    - A run-time panic is the [Panic] outcome of the [Result] monad.
    - The values the cache inspects by reflection live in the universe
      [Value]; the dynamic type of a value is its constructor.
    - A channel is represented by its complete trace: the values emitted on
      it, in order, and whether its producer closed it.  The outcome of a
      [select] between a send and [ctx.Done()] is an input ([SelectCase]).
    - [make] of a channel panics as [runtime.makechan] does, on a negative
      size and on a buffer beyond the largest allocation, for the element
      sizes of a 64-bit platform. *)

From Stdlib Require Import ZArith Lia Bool.
From stdpp Require Import base option list sorting strings gmap fin_maps.

Local Open Scope Z_scope.

(** ** Machine integers and time *)

Module Int64.

Definition modulus : Z := 2 ^ 64.
Definition half_modulus : Z := 2 ^ 63.
Definition max_value : Z := half_modulus - 1.
Definition min_value : Z := - half_modulus.

(** Two's complement reduction of an integer to the [int64] range. *)
Definition wrap64 (n : Z) : Z :=
  (n + half_modulus) mod modulus - half_modulus.

Definition in_range (n : Z) : Prop := min_value <= n <= max_value.

(** [x++] and [x--] on an [int64]. *)
Definition incr (n : Z) : Z := wrap64 (n + 1).
Definition decr (n : Z) : Z := wrap64 (n - 1).

End Int64.

Module Time.

(** [time.Duration]: a count of nanoseconds. *)
Definition Duration := Z.
Definition Nanosecond : Duration := 1.
Definition Second : Duration := 1000000000.
Definition Minute : Duration := 60 * Second.

(** [time.Time] as nanoseconds since the Unix epoch. *)
Definition Time := Z.

(** The zero [time.Time] (January 1, year 1, 00:00 UTC). *)
Definition zero : Time := -62135596800 * Second.

(** [t.Sub(u)]: the difference, saturated to the [Duration] range. *)
Definition Sub (t u : Time) : Duration :=
  Z.max Int64.min_value (Z.min Int64.max_value (t - u)).

(** [time.Since(t)] when the clock reads [now]. *)
Definition Since (now t : Time) : Duration := Sub now t.

(** [t.UnixNano()], an [int64]. *)
Definition UnixNano (t : Time) : Z := Int64.wrap64 t.

End Time.

(** ** Outcomes: normal return or panic *)

Inductive Result (A : Type) : Type :=
| Ok (a : A)
| Panic (msg : string).
Arguments Ok {A} a.
Arguments Panic {A} msg.

Definition bind {A B : Type} (r : Result A) (k : A -> Result B) : Result B :=
  match r with
  | Ok a => k a
  | Panic msg => Panic msg
  end.

Notation "'let!' x ':=' r 'in' k" := (bind r (fun x => k))
  (at level 10, x name, r at level 200, k at level 200).

(** [error]: [None] is the nil error. *)
Record CacheError : Type := mkCacheError { Message : string }.
Definition error : Type := option CacheError.

(** ** Values seen through reflection *)

#[local] Set Warnings "-register-all".

(** The Go values the model covers: nil, booleans, [int], [int64],
    strings, slices, structs (their fields by name, in declaration order)
    and non-nil pointers.  Floats, maps, functions and named types are
    outside this universe. *)
Inductive Value : Type :=
| VNil
| VBool (b : bool)
| VInt (n : Z)
| VInt64 (n : Z)
| VString (s : string)
| VSlice (elems : list Value)
| VStruct (fields : list (string * Value))
| VPtr (target : Value).

Inductive Kind : Type :=
| KInvalid | KBool | KInt | KInt64 | KString | KSlice | KStruct | KPtr.

Module reflect.

(** [reflect.Value]: [None] is the zero (invalid) Value. *)
Definition RValue : Type := option Value.

(** [reflect.ValueOf(x)]. [VNil] stands for a nil pointer, whose
    [Elem()] is the zero Value. *)
Definition ValueOf (x : Value) : RValue := Some x.

Definition kind (v : RValue) : Kind :=
  match v with
  | None => KInvalid
  | Some VNil => KPtr
  | Some (VBool _) => KBool
  | Some (VInt _) => KInt
  | Some (VInt64 _) => KInt64
  | Some (VString _) => KString
  | Some (VSlice _) => KSlice
  | Some (VStruct _) => KStruct
  | Some (VPtr _) => KPtr
  end.

Definition Kind_eqb (a b : Kind) : bool :=
  match a, b with
  | KInvalid, KInvalid | KBool, KBool | KInt, KInt | KInt64, KInt64
  | KString, KString | KSlice, KSlice | KStruct, KStruct | KPtr, KPtr => true
  | _, _ => false
  end.

(** [v.Elem()] on a pointer. *)
Definition Elem (v : RValue) : RValue :=
  match v with
  | Some (VPtr x) => Some x
  | _ => None
  end.

Definition IsValid (v : RValue) : bool :=
  match v with Some _ => true | None => false end.

Fixpoint lookup_field (name : string) (fields : list (string * Value))
  : option Value :=
  match fields with
  | [] => None
  | (n, x) :: rest => if String.eqb n name then Some x else lookup_field name rest
  end.

(** [v.FieldByName(name)]: panics unless [v] is a struct; the zero Value
    when the struct has no such field. *)
Definition FieldByName (v : RValue) (name : string) : Result RValue :=
  match v with
  | Some (VStruct fields) => Ok (lookup_field name fields)
  | _ => Panic "reflect: call of reflect.Value.FieldByName on non-struct Value"
  end.

(** [v.String()] for a Value of kind String. *)
Definition String (v : RValue) : string :=
  match v with
  | Some (VString s) => s
  | _ => "<invalid Value>"
  end.

(** [reflect.DeepEqual]: same dynamic type and deeply equal contents. *)
Fixpoint DeepEqual (x y : Value) {struct x} : bool :=
  match x, y with
  | VNil, VNil => true
  | VBool a, VBool b => Bool.eqb a b
  | VInt a, VInt b => Z.eqb a b
  | VInt64 a, VInt64 b => Z.eqb a b
  | VString a, VString b => String.eqb a b
  | VSlice xs, VSlice ys =>
      (fix elems_eq (l1 l2 : list Value) {struct l1} : bool :=
         match l1, l2 with
         | [], [] => true
         | a :: l1', b :: l2' => DeepEqual a b && elems_eq l1' l2'
         | _, _ => false
         end) xs ys
  | VStruct fs, VStruct gs =>
      (fix fields_eq (l1 l2 : list (string * Value)) {struct l1} : bool :=
         match l1, l2 with
         | [], [] => true
         | (n, a) :: l1', (m, b) :: l2' =>
             String.eqb n m && DeepEqual a b && fields_eq l1' l2'
         | _, _ => false
         end) fs gs
  | VPtr a, VPtr b => DeepEqual a b
  | _, _ => false
  end.

End reflect.

(** ** Value types of the cache (package [cache], types file) *)

(** [FilterOperator] is a string type; these are its declared constants. *)
Definition FilterOperator : Type := string.
Definition FilterEquals : FilterOperator := "eq".
Definition FilterNotEquals : FilterOperator := "ne".
Definition FilterIn : FilterOperator := "in".
Definition FilterNotIn : FilterOperator := "nin".
Definition FilterGreater : FilterOperator := "gt".
Definition FilterLess : FilterOperator := "lt".
Definition FilterContains : FilterOperator := "contains".

Record Filter : Type := mkFilter {
  Field : string;
  Operator : FilterOperator;
  FValue : Value
}.

Record SortField : Type := mkSortField {
  SField : string;
  Desc : bool
}.

Record Query : Type := mkQuery {
  Filters : list Filter;
  Sort : list SortField;
  Limit : Z;
  Offset : Z
}.

Record CacheStats : Type := mkCacheStats {
  HitCount : Z;
  MissCount : Z;
  ItemCount : Z;
  MemoryUsage : Z;
  LastCleanup : Time.Time
}.

Record CacheConfig : Type := mkCacheConfig {
  TTL : Time.Duration;
  MaxItems : Z;
  CleanupInterval : Time.Duration;
  BufferSize : Z
}.

Definition DefaultCacheConfig : CacheConfig :=
  {| TTL := 5 * Time.Minute;
     MaxItems := 1000;
     CleanupInterval := 1 * Time.Minute;
     BufferSize := 64 |}.

Record CacheResult (A : Type) : Type := mkCacheResult {
  Data : A;
  Error : error;
  Cached : bool;
  Timestamp : Time.Time;
  Version : Z
}.
Arguments mkCacheResult {A} _ _ _ _ _.
Arguments Data {A} _.
Arguments Error {A} _.
Arguments Cached {A} _.
Arguments Timestamp {A} _.
Arguments Version {A} _.

Definition ErrCacheMiss : CacheError := {| Message := "cache miss" |}.

(** ** Events of the publish/subscribe bus *)

(** Modelled from the spec: package [pubsub] is not part of the sources;
    an event is a pair of a type among Created, Updated, Deleted and a
    payload.  The event type is a string type in the callers' usage, so any
    other type tag is representable ([OtherEvent]). *)
Inductive EventType : Type :=
| CreatedEvent
| UpdatedEvent
| DeletedEvent
| OtherEvent (tag : string).

Record Event : Type := mkEvent {
  Type_ : EventType;
  Payload : Value
}.

(** ** Channels, contexts and select *)

(** The trace of a channel: what its producer emitted, whether it was
    closed, and the capacity it was made with. *)
Record Chan (A : Type) : Type := mkChan {
  capacity : Z;
  emitted : list A;
  closed : bool
}.
Arguments mkChan {A} _ _ _.
Arguments capacity {A} _.
Arguments emitted {A} _.
Arguments closed {A} _.

(** [unsafe.Sizeof] and [unsafe.Alignof] of a value of the universe on a
    64-bit platform: a word for [int], [int64] and pointers, two words for
    a string, three for a slice header, one byte for a boolean; a struct
    lays its fields out in declaration order, each at the next multiple of
    its alignment, and is padded to its own alignment.  [VNil] is sized as
    a nil pointer. *)
Definition round_up (n a : Z) : Z := (n + a - 1) / a * a.

Fixpoint layout (v : Value) : Z * Z :=
  match v with
  | VBool _ => (1, 1)
  | VString _ => (16, 8)
  | VSlice _ => (24, 8)
  | VStruct fields =>
      let fix go (fs : list (string * Value)) (off al : Z) : Z * Z :=
        match fs with
        | [] => (round_up off al, al)
        | (_, f) :: rest =>
            let '(s, a) := layout f in
            go rest (round_up off a + s) (Z.max al a)
        end in
      go fields 0 1
  | VNil | VInt _ | VInt64 _ | VPtr _ => (8, 8)
  end.

Definition size_of (v : Value) : Z := fst (layout v).

Definition slice_size : Z := 24.

(** The size of a [CacheResult[T]] whose [Data] field takes [data_size]
    bytes: [Data], then [Error] (an interface, two words), [Cached] (a
    byte, padded to the next word), [Timestamp] (a [time.Time], three
    words) and [Version] (a word). *)
Definition result_size (data_size : Z) : Z :=
  round_up (round_up data_size 8 + 16 + 1) 8 + 24 + 8.

(** The largest allocation of the Go runtime ([runtime.maxAlloc], 2^48
    bytes on linux/amd64 and the other platforms with 48 address bits) and
    the size of a channel's header ([runtime.hchanSize], 96 bytes; later
    versions of the runtime add a word or two to it). *)
Definition maxAlloc : Z := 2 ^ 48.
Definition hchanSize : Z := 96.

(** [make(chan A, n)] for elements of [elem_size] bytes, as
    [runtime.makechan] decides it: it panics when the buffer of [n]
    elements, with the header, exceeds the largest allocation, and on a
    negative size.  Below that bound the runtime may still run out of
    memory, which ends the process rather than panicking; the model leaves
    that out, and the properties that need the channel are stated for the
    calls in which [make] returns it. *)
Definition make_chan {A : Type} (elem_size n : Z) : Result (Chan A) :=
  let mem := elem_size * n in
  if (maxAlloc - hchanSize <? mem) || (n <? 0)
  then Panic "makechan: size out of range"
  else Ok (mkChan n [] false).

Definition send {A : Type} (ch : Chan A) (x : A) : Chan A :=
  mkChan (capacity ch) (emitted ch ++ [x]) (closed ch).

Definition close_chan {A : Type} (ch : Chan A) : Chan A :=
  mkChan (capacity ch) (emitted ch) true.

(** The case taken by [select { case ch <- v: ...; case <-ctx.Done(): ... }].
    [SelectDone] can only be taken once the context is cancelled;
    [SelectSend] is the case taken for a context that is never cancelled.
    When the context is cancelled and the send can proceed as well, the
    runtime takes either case. *)
Inductive SelectCase : Type :=
| SelectSend
| SelectDone.

(** [time.NewTicker(d)] panics on a non-positive interval. *)
Record Ticker : Type := mkTicker {
  interval : Time.Duration;
  stopped : bool
}.

Definition NewTicker (d : Time.Duration) : Result Ticker :=
  if d <=? 0 then Panic "non-positive interval for NewTicker"
  else Ok (mkTicker d false).

Definition Ticker_Stop (t : Ticker) : Ticker := mkTicker (interval t) true.

(** ** The stream cache *)

Record cacheItem : Type := mkCacheItem {
  data : Value;
  timestamp : Time.Time;
  version : Z;
  hits : Z
}.

(** An event subscription handed out by a service's [Subscribe]. *)
Definition EventSource : Type := string.

(** [streamCache[T]].  The channels [done] and [eventDone] are represented
    by whether they have been closed.  The source also allocates an empty
    [queries] map in the constructor; no function reads or writes it, and
    it is left out. *)
Record streamCache : Type := mkStreamCache {
  config : CacheConfig;
  items : gmap string cacheItem;
  stats : CacheStats;
  cleanup : option Ticker;
  done : bool;
  eventSub : option EventSource;
  eventDone : bool
}.

Definition set_items (c : streamCache) (m : gmap string cacheItem) : streamCache :=
  mkStreamCache (config c) m (stats c) (cleanup c) (done c) (eventSub c) (eventDone c).

Definition set_stats (c : streamCache) (s : CacheStats) : streamCache :=
  mkStreamCache (config c) (items c) s (cleanup c) (done c) (eventSub c) (eventDone c).

Definition set_HitCount (s : CacheStats) (n : Z) : CacheStats :=
  mkCacheStats n (MissCount s) (ItemCount s) (MemoryUsage s) (LastCleanup s).

Definition set_MissCount (s : CacheStats) (n : Z) : CacheStats :=
  mkCacheStats (HitCount s) n (ItemCount s) (MemoryUsage s) (LastCleanup s).

Definition set_ItemCount (s : CacheStats) (n : Z) : CacheStats :=
  mkCacheStats (HitCount s) (MissCount s) n (MemoryUsage s) (LastCleanup s).

Definition zero_stats : CacheStats := mkCacheStats 0 0 0 0 Time.zero.

(** [NewStreamCache(config, eventSubscriber)]; [eventSubscriber] is [None]
    for a nil function, otherwise the subscription it returns. *)
Definition NewStreamCache (cfg : CacheConfig) (eventSubscriber : option EventSource)
  : Result streamCache :=
  let cfg := if TTL cfg =? 0 then DefaultCacheConfig else cfg in
  let! ticker := NewTicker (CleanupInterval cfg) in
  Ok {| config := cfg;
        items := ∅;
        stats := zero_stats;
        cleanup := Some ticker;
        done := false;
        eventSub := eventSubscriber;
        eventDone := false |}.

(** [extractID]: the string field [ID] of the payload (or of the struct it
    points to); the empty string when there is none. *)
Definition extractID (payload : Value) : string :=
  let v := reflect.ValueOf payload in
  let v := if reflect.Kind_eqb (reflect.kind v) KPtr then reflect.Elem v else v in
  match v with
  | Some (VStruct fields) =>
      let idField := reflect.lookup_field "ID" fields in
      if negb (reflect.IsValid idField)
         || negb (reflect.Kind_eqb (reflect.kind idField) KString)
      then ""
      else reflect.String idField
  | _ => ""
  end.

(** [isExpired]: [time.Since(item.timestamp) > c.config.TTL]. *)
Definition isExpired (c : streamCache) (now : Time.Time) (item : cacheItem) : bool :=
  TTL (config c) <? Time.Since now (timestamp item).

(** [handleEvent].  [t_stamp] and [t_version] are the two clock readings
    taken for the new item's timestamp and version. *)
Definition handleEvent (c : streamCache) (t_stamp t_version : Time.Time)
    (event : Event) : streamCache :=
  let id := extractID (Payload event) in
  if String.eqb id "" then c
  else
    match Type_ event with
    | CreatedEvent | UpdatedEvent =>
        let item := mkCacheItem (Payload event) t_stamp (Time.UnixNano t_version) 0 in
        match items c !! id with
        | Some existing =>
            let item := mkCacheItem (data item) (timestamp item) (version item)
                                    (hits existing) in
            set_items c (<[id := item]> (items c))
        | None =>
            let c := set_stats c (set_ItemCount (stats c)
                                    (Int64.incr (ItemCount (stats c)))) in
            set_items c (<[id := item]> (items c))
        end
    | DeletedEvent =>
        match items c !! id with
        | Some _ =>
            let c := set_items c (delete id (items c)) in
            set_stats c (set_ItemCount (stats c) (Int64.decr (ItemCount (stats c))))
        | None => c
        end
    | OtherEvent _ => c
    end.

(** An event together with the clock readings taken while handling it. *)
Record Ingest : Type := mkIngest {
  at_stamp : Time.Time;
  at_version : Time.Time;
  ev : Event
}.

(** [eventRoutine] applied to the events received so far, in order. *)
Definition ingest (c : streamCache) (evs : list Ingest) : streamCache :=
  fold_left (fun c i => handleEvent c (at_stamp i) (at_version i) (ev i)) evs c.

(** [matchesFilter]: one filter against the value of its field. *)
Definition matchesFilter (value : Value) (filter : Filter) : bool :=
  if String.eqb (Operator filter) FilterEquals then
    reflect.DeepEqual value (FValue filter)
  else if String.eqb (Operator filter) FilterNotEquals then
    negb (reflect.DeepEqual value (FValue filter))
  else true.

(** Exported field names start with an upper-case letter (ASCII here). *)
Definition is_exported (name : string) : bool :=
  match name with
  | String a _ => let n := Ascii.nat_of_ascii a in (65 <=? n)%nat && (n <=? 90)%nat
  | EmptyString => false
  end.

(** [field.Interface()] on the field [name]: panics on an unexported field. *)
Definition Interface (name : string) (field : Value) : Result Value :=
  if is_exported name then Ok field
  else Panic "reflect.Value.Interface: cannot return value obtained from unexported field or method".

Fixpoint matchesFilters_loop (v : reflect.RValue) (filters : list Filter)
  : Result bool :=
  match filters with
  | [] => Ok true
  | filter :: rest =>
      let! field := reflect.FieldByName v (Field filter) in
      match field with
      | None => matchesFilters_loop v rest
      | Some x =>
          let! value := Interface (Field filter) x in
          if negb (matchesFilter value filter) then Ok false
          else matchesFilters_loop v rest
      end
  end.

(** [matchesFilters]. *)
Definition matchesFilters (d : Value) (filters : list Filter) : Result bool :=
  if (length filters =? 0)%nat then Ok true
  else
    let v := reflect.ValueOf d in
    let v := if reflect.Kind_eqb (reflect.kind v) KPtr then reflect.Elem v else v in
    matchesFilters_loop v filters.

(** The methods of the [StreamCache] interface as [streamCache] implements
    them. *)
Module StreamCache.

Section Operations.

(** The zero value of the cache's type parameter [T] ([var zero T]). *)
Variable zeroT : Value.

(** [Get(ctx, id)]: the cache after the call and the trace of the returned
    channel.  [now] is the clock reading of [isExpired]; [sel] is the case
    taken by the producer's [select]. *)
Definition Get (c : streamCache) (now : Time.Time) (sel : SelectCase) (id : string)
  : Result (streamCache * Chan (CacheResult Value)) :=
  let! resultCh := make_chan (result_size (size_of zeroT)) (BufferSize (config c)) in
  let miss :=
    let c := set_stats c (set_MissCount (stats c) (Int64.incr (MissCount (stats c)))) in
    let resultCh :=
      match sel with
      | SelectSend =>
          send resultCh {| Data := zeroT; Error := Some ErrCacheMiss;
                           Cached := false; Timestamp := Time.zero; Version := 0 |}
      | SelectDone => resultCh
      end in
    Ok (c, close_chan resultCh) in
  match items c !! id with
  | Some item =>
      if negb (isExpired c now item) then
        let item' := mkCacheItem (data item) (timestamp item) (version item)
                                 (Int64.incr (hits item)) in
        let c := set_items c (<[id := item']> (items c)) in
        let c := set_stats c (set_HitCount (stats c) (Int64.incr (HitCount (stats c)))) in
        let resultCh :=
          match sel with
          | SelectSend =>
              send resultCh {| Data := data item; Error := None; Cached := true;
                               Timestamp := timestamp item; Version := version item |}
          | SelectDone => resultCh
          end in
        Ok (c, close_chan resultCh)
      else miss
  | None => miss
  end.

(** The loop of [List] over the index, in the order [its] of the iteration. *)
Fixpoint List_collect (c : streamCache) (now : Time.Time) (filters : list Filter)
    (its : list (string * cacheItem)) : Result (list Value) :=
  match its with
  | [] => Ok []
  | (_, item) :: rest =>
      if negb (isExpired c now item) then
        let! m := matchesFilters (data item) filters in
        let! results := List_collect c now filters rest in
        Ok (if m then data item :: results else results)
      else List_collect c now filters rest
  end.

(** [List(ctx, filters...)].  Go iterates over a map in an unspecified
    order; the model iterates in the order of [map_to_list], and the
    properties below speak of the snapshot up to that order. *)
Definition List (c : streamCache) (now : Time.Time) (sel : SelectCase)
    (filters : list Filter) : Result (Chan (CacheResult (list Value))) :=
  let! resultCh := make_chan (result_size slice_size) (BufferSize (config c)) in
  let! results := List_collect c now filters (map_to_list (items c)) in
  let resultCh :=
    match sel with
    | SelectSend =>
        send resultCh {| Data := results; Error := None; Cached := true;
                         Timestamp := now; Version := 0 |}
    | SelectDone => resultCh
    end in
  Ok (close_chan resultCh).

(** The forwarding loop of [Query]: [for result := range results] with a
    [select] per received value; [sels i] is the case taken at the [i]-th
    value. *)
Fixpoint Query_forward {A : Type} (results : list A) (i : nat)
    (sels : nat -> SelectCase) (resultCh : Chan A) : Chan A :=
  match results with
  | [] => resultCh
  | result :: rest =>
      match sels i with
      | SelectSend => Query_forward rest (S i) sels (send resultCh result)
      | SelectDone => resultCh
      end
  end.

(** [Query(ctx, query)]. *)
Definition Query (c : streamCache) (now : Time.Time) (sel_list : SelectCase)
    (sels : nat -> SelectCase) (query : Query)
  : Result (Chan (CacheResult (list Value))) :=
  let! resultCh := make_chan (result_size slice_size) (BufferSize (config c)) in
  let! results := List c now sel_list (Filters query) in
  Ok (close_chan (Query_forward (emitted results) 0 sels resultCh)).

(** [Invalidate(ids...)]. *)
Definition Invalidate (c : streamCache) (ids : list string) : streamCache :=
  fold_left
    (fun c id =>
       let c := set_items c (delete id (items c)) in
       set_stats c (set_ItemCount (stats c) (Int64.decr (ItemCount (stats c)))))
    ids c.

(** [Clear()]. *)
Definition Clear (c : streamCache) : streamCache :=
  let c := set_items c ∅ in
  set_stats c (set_ItemCount (stats c) 0).

(** [Stats()]. *)
Definition Stats (c : streamCache) : CacheStats := stats c.

(** [Close()]: closes [done], then [eventDone], stops the ticker and
    returns nil.  Closing a closed channel panics. *)
Definition Close (c : streamCache) : Result (streamCache * error) :=
  if done c then Panic "close of closed channel"
  else
    if eventDone c then Panic "close of closed channel"
    else
      let cleanup' :=
        match cleanup c with
        | Some t => Some (Ticker_Stop t)
        | None => None
        end in
      Ok (mkStreamCache (config c) (items c) (stats c) cleanup' true
                        (eventSub c) true, None).

End Operations.

End StreamCache.

(** ** Entity caches and the manager *)

(** A persistence service (an interface value; [None] is nil).  Its
    [Subscribe] method yields the event source of the service. *)
Record Service : Type := mkService { service_name : string }.

Definition Subscribe (s : Service) : EventSource := service_name s.

(** Caches are heap objects: a [*SessionCache] or [*MessageCache] is an
    index into the heap of allocated stream caches. *)
Definition Ptr : Type := nat.
Definition Heap : Type := list streamCache.

(** [NewSessionCache] and [NewMessageCache]: both build a stream cache on
    the service's [Subscribe]; taking the method value of a nil interface
    panics. *)
Definition NewEntityCache (cfg : CacheConfig) (service : option Service) (h : Heap)
  : Result (Ptr * Heap) :=
  match service with
  | None => Panic "invalid memory address or nil pointer dereference"
  | Some s =>
      let! streamCache := NewStreamCache cfg (Some (Subscribe s)) in
      Ok (length h, h ++ [streamCache])
  end.

(** [SessionCacheManager] and [MessageCacheManager] have the same fields,
    and their [Start], [GetCache] and [Stop] the same bodies; the session
    manager additionally spawns [prePopulateCache], which lists the
    sessions and touches no cache. *)
Record EntityCacheManager : Type := mkEntityCacheManager {
  cache : option Ptr;
  service : option Service;
  mconfig : CacheConfig
}.

Module EntityCacheManager.

Definition New (service : option Service) (cfg : CacheConfig) : EntityCacheManager :=
  {| cache := None; service := service; mconfig := cfg |}.

Definition Start (m : EntityCacheManager) (h : Heap)
  : Result (EntityCacheManager * Heap * error) :=
  let! r := NewEntityCache (mconfig m) (service m) h in
  let '(p, h) := r in
  Ok (mkEntityCacheManager (Some p) (service m) (mconfig m), h, None).

Definition GetCache (m : EntityCacheManager) : option Ptr := cache m.

Definition Stop (m : EntityCacheManager) (h : Heap) : Result (Heap * error) :=
  match cache m with
  | Some p =>
      match h !! p with
      | Some c =>
          let! r := StreamCache.Close c in
          let '(c, err) := r in
          Ok (<[p := c]> h, err)
      | None => Panic "invalid memory address or nil pointer dereference"
      end
  | None => Ok (h, None)
  end.

End EntityCacheManager.

Definition NewSessionCacheManager := EntityCacheManager.New.
Definition NewMessageCacheManager := EntityCacheManager.New.

(** [Manager].  [ctx] is [None] before the first [Start]; afterwards it
    records whether the manager's own context has been cancelled. *)
Record Manager : Type := mkManager {
  manager_config : CacheConfig;
  sessionManager : option EntityCacheManager;
  messageManager : option EntityCacheManager;
  sessionService : option Service;
  messageService : option Service;
  historyService : option Service;
  ctx : option bool;
  started : bool
}.

Definition NewManager (sessionService messageService historyService : option Service)
    (cfg : CacheConfig) : Manager :=
  let cfg := if TTL cfg =? 0 then DefaultCacheConfig else cfg in
  {| manager_config := cfg;
     sessionManager := None;
     messageManager := None;
     sessionService := sessionService;
     messageService := messageService;
     historyService := historyService;
     ctx := None;
     started := false |}.

Module Manager.

Definition Start (m : Manager) (h : Heap) : Result (Manager * Heap * error) :=
  if started m then Ok (m, h, None)
  else
    let ctx' := Some false in
    let sm := NewSessionCacheManager (sessionService m) (manager_config m) in
    let mm := NewMessageCacheManager (messageService m) (manager_config m) in
    let! r := EntityCacheManager.Start sm h in
    let '(sm, h, err) := r in
    match err with
    | Some e =>
        Ok (mkManager (manager_config m) (Some sm) (Some mm) (sessionService m)
                      (messageService m) (historyService m) ctx' (started m),
            h, Some e)
    | None =>
        let! r := EntityCacheManager.Start mm h in
        let '(mm, h, err) := r in
        match err with
        | Some e =>
            Ok (mkManager (manager_config m) (Some sm) (Some mm) (sessionService m)
                          (messageService m) (historyService m) ctx' (started m),
                h, Some e)
        | None =>
            Ok (mkManager (manager_config m) (Some sm) (Some mm) (sessionService m)
                          (messageService m) (historyService m) ctx' true,
                h, None)
        end
    end.

(** Stopping one of the two entity managers inside [Manager.Stop]:
    nothing for a nil manager, otherwise its [Stop], collecting the error. *)
Definition stop_entity (em : option EntityCacheManager) (h : Heap) (errs : list CacheError)
  : Result (Heap * list CacheError) :=
  match em with
  | Some em =>
      let! r := EntityCacheManager.Stop em h in
      let '(h, err) := r in
      match err with
      | Some e => Ok (h, errs ++ [e])
      | None => Ok (h, errs)
      end
  | None => Ok (h, errs)
  end.

Definition Stop (m : Manager) (h : Heap) : Result (Manager * Heap * error) :=
  if negb (started m) then Ok (m, h, None)
  else
    let ctx' := match ctx m with Some _ => Some true | None => None end in
    let errs := [] in
    let! r := stop_entity (sessionManager m) h errs in
    let '(h, errs) := r in
    let! r := stop_entity (messageManager m) h errs in
    let '(h, errs) := r in
    let m := mkManager (manager_config m) (sessionManager m) (messageManager m)
                       (sessionService m) (messageService m) (historyService m)
                       ctx' false in
    Ok (m, h, head errs).

(** [Sessions()] and [Messages()]. *)
Definition Sessions (m : Manager) : option Ptr :=
  match sessionManager m with
  | Some sm => EntityCacheManager.GetCache sm
  | None => None
  end.

Definition Messages (m : Manager) : option Ptr :=
  match messageManager m with
  | Some mm => EntityCacheManager.GetCache mm
  | None => None
  end.

Definition IsStarted (m : Manager) : bool := started m.

End Manager.

(** ** Induction over values, through slices and struct fields *)

Section ValueInduction.

Variable P : Value -> Prop.
Hypothesis HNil : P VNil.
Hypothesis HBool : forall b, P (VBool b).
Hypothesis HInt : forall n, P (VInt n).
Hypothesis HInt64 : forall n, P (VInt64 n).
Hypothesis HString : forall s, P (VString s).
Hypothesis HSlice : forall elems, Forall P elems -> P (VSlice elems).
Hypothesis HStruct : forall fields, Forall (fun f => P (snd f)) fields -> P (VStruct fields).
Hypothesis HPtr : forall target, P target -> P (VPtr target).

Fixpoint Value_nested_ind (v : Value) : P v :=
  match v with
  | VNil => HNil
  | VBool b => HBool b
  | VInt n => HInt n
  | VInt64 n => HInt64 n
  | VString s => HString s
  | VSlice elems =>
      HSlice elems
        ((fix all (l : list Value) : Forall P l :=
            match l with
            | [] => List.Forall_nil P
            | x :: l' => @List.Forall_cons _ P x l' (Value_nested_ind x) (all l')
            end) elems)
  | VStruct fields =>
      HStruct fields
        ((fix all (l : list (string * Value)) : Forall (fun f => P (snd f)) l :=
            match l with
            | [] => List.Forall_nil _
            | f :: l' =>
                @List.Forall_cons _ (fun f => P (snd f)) f l'
                  (Value_nested_ind (snd f)) (all l')
            end) fields)
  | VPtr target => HPtr target (Value_nested_ind target)
  end.

End ValueInduction.

(** ** Sample entities and caches of the examples *)

(** [TestData] of the cache's unit tests: a struct with [ID], [Name], [Age]. *)
Definition TestData (id name : string) (age : Z) : Value :=
  VStruct [("ID", VString id); ("Name", VString name); ("Age", VInt age)].

Definition zero_TestData : Value := TestData "" "" 0.

(** The cache that [NewStreamCache(DefaultCacheConfig(), broker.Subscribe)]
    returns. *)
Definition default_cache : streamCache :=
  {| config := DefaultCacheConfig;
     items := ∅;
     stats := zero_stats;
     cleanup := Some (mkTicker (1 * Time.Minute) false);
     done := false;
     eventSub := Some "broker";
     eventDone := false |}.

(** A configuration with room for a single item. *)
Definition tiny_config : CacheConfig :=
  {| TTL := 1 * Time.Minute; MaxItems := 1;
     CleanupInterval := 10 * Time.Second; BufferSize := 10 |}.

Definition tiny_cache : streamCache :=
  {| config := tiny_config;
     items := ∅;
     stats := zero_stats;
     cleanup := Some (mkTicker (10 * Time.Second) false);
     done := false;
     eventSub := Some "broker";
     eventDone := false |}.

(** A configuration whose buffer size is the largest [int]. *)
Definition huge_buffer_config : CacheConfig :=
  {| TTL := 1 * Time.Minute; MaxItems := 100;
     CleanupInterval := 10 * Time.Second; BufferSize := Int64.max_value |}.

Definition huge_buffer_cache : streamCache :=
  {| config := huge_buffer_config;
     items := ∅;
     stats := zero_stats;
     cleanup := Some (mkTicker (10 * Time.Second) false);
     done := false;
     eventSub := Some "broker";
     eventDone := false |}.

Definition created (t : Time.Time) (payload : Value) : Ingest :=
  mkIngest t t (mkEvent CreatedEvent payload).

Definition alice : Value := TestData "a" "Alice" 25.
Definition bob : Value := TestData "b" "Bob" 30.

(** ** Notions used by the statements *)

(** [make] returns the result channel of [Get] for the buffer size of the
    cache, where [zeroT] is the zero value of its entity type. *)
Definition Get_makes_chan (zeroT : Value) (c : streamCache) : Prop :=
  exists ch : Chan (CacheResult Value),
    make_chan (result_size (size_of zeroT)) (BufferSize (config c)) = Ok ch.

(** [make] returns the result channel of [List] and of [Query] for the
    buffer size of the cache. *)
Definition List_makes_chan (c : streamCache) : Prop :=
  exists ch : Chan (CacheResult (list Value)),
    make_chan (result_size slice_size) (BufferSize (config c)) = Ok ch.

(** [p] designates a cache that did not exist in [h_old] and is, in
    [h_new], empty, with zero statistics and open [done]/[eventDone]. *)
Definition fresh_cache_at (h_old h_new : Heap) (p : Ptr) : Prop :=
  (length h_old <= p)%nat /\
  exists c, h_new !! p = Some c /\ items c = ∅ /\ stats c = zero_stats /\
            done c = false /\ eventDone c = false.

Definition sample_manager : Manager :=
  NewManager (Some (mkService "sessions")) (Some (mkService "messages")) None
             DefaultCacheConfig.

(** The sample manager after [Start], and after [Start] then [Stop]. *)
Definition sample_started : Manager * Heap :=
  match Manager.Start sample_manager [] with
  | Ok (m, h, _) => (m, h)
  | Panic _ => (sample_manager, [])
  end.

Definition sample_stopped : Manager * Heap :=
  match Manager.Stop (fst sample_started) (snd sample_started) with
  | Ok (m, h, _) => (m, h)
  | Panic _ => sample_started
  end.

(** An event that inserts or refreshes a record: Created or Updated, with
    a payload whose id is not empty. *)
Definition is_insert (e : Event) : bool :=
  match Type_ e with
  | CreatedEvent | UpdatedEvent => negb (String.eqb (extractID (Payload e)) "")
  | _ => false
  end.

(** The version held by the record that the event [e] has just inserted or
    refreshed in [c']. *)
Definition assigned_version (c' : streamCache) (e : Event) : option Z :=
  if is_insert e then version <$> items c' !! extractID (Payload e) else None.

(** The versions assigned by the cache along a run of [handleEvent], in the
    order of the inserts and refreshes. *)
Fixpoint versions_assigned (c : streamCache) (evs : list Ingest) : list Z :=
  match evs with
  | [] => []
  | i :: rest =>
      let c' := handleEvent c (at_stamp i) (at_version i) (ev i) in
      match assigned_version c' (ev i) with
      | Some v => v :: versions_assigned c' rest
      | None => versions_assigned c' rest
      end
  end.

(** The id an ingested event carries. *)
Definition event_id (i : Ingest) : string := extractID (Payload (ev i)).

(** The last event of a run that carries [id], if any. *)
Definition last_event_for (id : string) (evs : list Ingest) : option Ingest :=
  last (filter (fun i => event_id i = id) evs).

(** The event is of one of the three types Created, Updated, Deleted. *)
Definition is_CUD (e : Event) : bool :=
  match Type_ e with
  | CreatedEvent | UpdatedEvent | DeletedEvent => true
  | OtherEvent _ => false
  end.

(** What the specification (P1) says [get(id)] delivers after the events
    [evs]: payload of the last Created/Updated event for [id], cached, no
    error; or the zero value, not cached, [CacheMiss] when the last event
    for [id] was Deleted or no event carried [id]. *)
Definition spec_get_result (zeroT : Value) (id : string) (evs : list Ingest)
  : Value * bool * error :=
  match last_event_for id evs with
  | Some i =>
      match Type_ (ev i) with
      | CreatedEvent | UpdatedEvent => (Payload (ev i), true, None)
      | _ => (zeroT, false, Some ErrCacheMiss)
      end
  | None => (zeroT, false, Some ErrCacheMiss)
  end.

(** A payload whose [ID] is the empty string. *)
Definition ghost : Value := TestData "" "Ghost" 1.

(** A record is selected for a snapshot when it is unexpired and
    [matchesFilters] returns true for it. *)
Definition selected (c : streamCache) (now : Time.Time) (filters : list Filter)
    (item : cacheItem) : bool :=
  negb (isExpired c now item)
  && match matchesFilters (data item) filters with
     | Ok m => m
     | Panic _ => false
     end.

(** [snapshot] lists, in some order and each exactly once, the data of the
    cached records that are unexpired at [now] and pass [matchesFilters]. *)
Definition is_snapshot_of (c : streamCache) (now : Time.Time)
    (filters : list Filter) (snapshot : list Value) : Prop :=
  exists kvs : list (string * cacheItem),
    snapshot = (fun kv => data (snd kv)) <$> kvs /\
    NoDup (fst <$> kvs) /\
    forall id item,
      (id, item) ∈ kvs <->
      items c !! id = Some item /\ isExpired c now item = false /\
      matchesFilters (data item) filters = Ok true.

(** Every record is stored under the non-empty id of its own data. *)
Definition items_wf (c : streamCache) : Prop :=
  map_Forall (fun id item => extractID (data item) = id /\ id <> "") (items c).

(** [matchesFilters] returns (does not panic) on every unexpired record. *)
Definition filters_apply (c : streamCache) (now : Time.Time)
    (filters : list Filter) : Prop :=
  map_Forall
    (fun _ item => isExpired c now item = false ->
                   exists m, matchesFilters (data item) filters = Ok m)
    (items c).

(** What the specification says [query] does to the filtered and sorted
    result set [sorted]: drop [offset] records, then keep at most [limit]
    (a zero limit means unbounded). *)
Definition spec_offset_limit (q : Query) (sorted : list Value) : list Value :=
  let rest := drop (Z.to_nat (Offset q)) sorted in
  if Limit q =? 0 then rest else take (Z.to_nat (Limit q)) rest.

Definition always_send : nat -> SelectCase := fun _ => SelectSend.

Definition age_is_30 : Filter := mkFilter "Age" FilterEquals (VInt 30).

(** * Further operations of the package *)

(** ** TTL cleanup *)

Definition set_LastCleanup (s : CacheStats) (t : Time.Time) : CacheStats :=
  mkCacheStats (HitCount s) (MissCount s) (ItemCount s) (MemoryUsage s) t.

(** One iteration of the loop of [performCleanup]: the visited entry is
    deleted, and the count decremented, when it is older than the TTL. *)
Definition performCleanup_visit (now : Time.Time) (c : streamCache)
    (kv : string * cacheItem) : streamCache :=
  if TTL (config c) <? Time.Sub now (timestamp (snd kv)) then
    let c := set_items c (delete (fst kv) (items c)) in
    set_stats c (set_ItemCount (stats c) (Int64.decr (ItemCount (stats c))))
  else c.

(** [performCleanup] when the clock reads [now].  The loop ranges over the
    entries the index has on entry; deleting the visited entry during the
    range is allowed in Go and does not change the other visits. *)
Definition performCleanup (c : streamCache) (now : Time.Time) : streamCache :=
  let c := fold_left (performCleanup_visit now) (map_to_list (items c)) c in
  set_stats c (set_LastCleanup (stats c) now).

(** ** Runs of operations on one cache *)

(** The operations that change a cache: an ingested event, a cleanup
    tick, [Invalidate], [Clear] and [Get] (which counts hits and misses). *)
Inductive Op : Type :=
| OpEvent (i : Ingest)
| OpCleanup (now : Time.Time)
| OpInvalidate (ids : list string)
| OpClear
| OpGet (now : Time.Time) (sel : SelectCase) (id : string).

(** The cache after one operation.  A [Get] that panics does so when it
    makes its channel, before it touches the cache. *)
Definition apply_op (zeroT : Value) (c : streamCache) (op : Op) : streamCache :=
  match op with
  | OpEvent i => handleEvent c (at_stamp i) (at_version i) (ev i)
  | OpCleanup now => performCleanup c now
  | OpInvalidate ids => StreamCache.Invalidate c ids
  | OpClear => StreamCache.Clear c
  | OpGet now sel id =>
      match StreamCache.Get zeroT c now sel id with
      | Ok (c', _) => c'
      | Panic _ => c
      end
  end.

Definition run (zeroT : Value) (c : streamCache) (ops : list Op) : streamCache :=
  fold_left (apply_op zeroT) ops c.

Definition is_OpInvalidate (op : Op) : bool :=
  match op with OpInvalidate _ => true | _ => false end.

(** [ItemCount] agrees with the number of records (on 64 bits). *)
Definition count_ok (c : streamCache) : Prop :=
  ItemCount (stats c) = Int64.wrap64 (Z.of_nat (size (items c))).

(** Two records in a cache whose TTL is one minute. *)
Definition two_records : streamCache :=
  ingest tiny_cache [created 1000 alice; created 2000 bob].

(** A clock reading at which the first of them, only, is older than the TTL. *)
Definition first_expired : Time.Time := 1 * Time.Minute + 1500.

(** ** What callers observe *)

(** The channel a [Get] call returns. *)
Definition Get_chan (zeroT : Value) (c : streamCache) (now : Time.Time)
    (sel : SelectCase) (id : string) : Result (Chan (CacheResult Value)) :=
  let! r := StreamCache.Get zeroT c now sel id in
  Ok (snd r).

(** A [Get] call: the clock reading of its expiry test, the case its
    [select] takes and the id asked for. *)
Record GetCall : Type := mkGetCall {
  call_now : Time.Time;
  call_sel : SelectCase;
  call_id : string
}.

(** A sequence of [Get] calls on one cache, one after the other: the cache
    at the end and the values received on the returned channels, in order. *)
Fixpoint Gets (zeroT : Value) (c : streamCache) (calls : list GetCall)
  : Result (streamCache * list (CacheResult Value)) :=
  match calls with
  | [] => Ok (c, [])
  | call :: rest =>
      let! r := StreamCache.Get zeroT c (call_now call) (call_sel call) (call_id call) in
      let '(c, ch) := r in
      let! r := Gets zeroT c rest in
      let '(c, received) := r in
      Ok (c, emitted ch ++ received)
  end.

Definition hit_calls : list GetCall :=
  [mkGetCall 3000 SelectSend "a"; mkGetCall 3000 SelectSend "zz";
   mkGetCall 3500 SelectSend "a"; mkGetCall first_expired SelectSend "a"].

(** A configuration with a negative TTL, which the constructors accept. *)
Definition negative_ttl_config : CacheConfig :=
  {| TTL := -1; MaxItems := 10; CleanupInterval := 1 * Time.Second; BufferSize := 1 |}.

Definition negative_ttl_cache : streamCache :=
  {| config := negative_ttl_config;
     items := ∅;
     stats := zero_stats;
     cleanup := Some (mkTicker (1 * Time.Second) false);
     done := false;
     eventSub := None;
     eventDone := false |}.

(** [two_records] after one hit on the first record. *)
Definition alice_hit_once : streamCache :=
  apply_op zero_TestData two_records (OpGet 3000 SelectSend "a").

Definition alicia : Value := TestData "a" "Alicia" 26.

(** The value on which [matchesFilters] looks fields up: the payload, or
    what it points to. *)
Definition deref (d : Value) : reflect.RValue :=
  let v := reflect.ValueOf d in
  if reflect.Kind_eqb (reflect.kind v) KPtr then reflect.Elem v else v.

(** The field [name] of an entity, if the entity is a struct (or points to
    one) that has it. *)
Definition field_of (d : Value) (name : string) : option Value :=
  match deref d with
  | Some (VStruct fields) => reflect.lookup_field name fields
  | _ => None
  end.

(** ** Entity caches: the typed wrappers over a stream cache *)

(** [MessageCache] embeds the stream cache of messages. *)
Module MessageCache.

Definition GetMessage (zeroT : Value) (c : streamCache) (now : Time.Time)
    (sel : SelectCase) (id : string) :=
  StreamCache.Get zeroT c now sel id.

Definition ListMessages (c : streamCache) (now : Time.Time) (sel : SelectCase) :=
  StreamCache.List c now sel [].

Definition ListMessagesBySession (c : streamCache) (now : Time.Time)
    (sel : SelectCase) (sessionID : string) :=
  let filter := {| Field := "SessionID"; Operator := FilterEquals;
                   FValue := VString sessionID |} in
  StreamCache.List c now sel [filter].

(** The role is a value of the message package's role type; it is passed
    on as the filter value as it is. *)
Definition ListMessagesByRole (c : streamCache) (now : Time.Time)
    (sel : SelectCase) (role : Value) :=
  let filter := {| Field := "Role"; Operator := FilterEquals; FValue := role |} in
  StreamCache.List c now sel [filter].

Definition ListMessagesBySessionAndRole (c : streamCache) (now : Time.Time)
    (sel : SelectCase) (sessionID : string) (role : Value) :=
  let filters :=
    [ {| Field := "SessionID"; Operator := FilterEquals; FValue := VString sessionID |};
      {| Field := "Role"; Operator := FilterEquals; FValue := role |} ] in
  StreamCache.List c now sel filters.

End MessageCache.

(** [SessionCache] embeds the stream cache of sessions. *)
Module SessionCache.

Definition GetSession (zeroT : Value) (c : streamCache) (now : Time.Time)
    (sel : SelectCase) (id : string) :=
  StreamCache.Get zeroT c now sel id.

Definition ListSessions (c : streamCache) (now : Time.Time) (sel : SelectCase) :=
  StreamCache.List c now sel [].


End SessionCache.

(** [Manager.Stats()]: the statistics of the caches the manager holds,
    keyed by entity name. *)
Definition Manager_Stats (m : Manager) (h : Heap) : Result (gmap string CacheStats) :=
  let stats : gmap string CacheStats := ∅ in
  let! stats :=
    match sessionManager m with
    | Some sm =>
        match EntityCacheManager.GetCache sm with
        | Some p =>
            match h !! p with
            | Some c => Ok (<["sessions" := StreamCache.Stats c]> stats)
            | None => Panic "invalid memory address or nil pointer dereference"
            end
        | None => Ok stats
        end
    | None => Ok stats
    end in
  match messageManager m with
  | Some mm =>
      match EntityCacheManager.GetCache mm with
      | Some p =>
          match h !! p with
          | Some c => Ok (<["messages" := StreamCache.Stats c]> stats)
          | None => Panic "invalid memory address or nil pointer dereference"
          end
      | None => Ok stats
      end
  | None => Ok stats
  end.

(** Sample messages: structs with [ID], [SessionID], [Role], [Content]. *)
Definition ChatMessage (id sessionID role content : string) : Value :=
  VStruct [("ID", VString id); ("SessionID", VString sessionID);
           ("Role", VString role); ("Content", VString content)].

Definition msg1 : Value := ChatMessage "m1" "S" "user" "hello".
Definition msg2 : Value := ChatMessage "m2" "S" "assistant" "hi".
Definition msg3 : Value := ChatMessage "m3" "T" "user" "bye".

Definition three_messages : streamCache :=
  ingest default_cache [created 1000 msg1; created 2000 msg2; created 3000 msg3].

(** The verdict of one filter on an entity's fields: passed over when the
    entity has no such field, otherwise [matchesFilter] on the field's
    value. *)
Definition filter_verdict (fields : list (string * Value)) (f : Filter) : bool :=
  match reflect.lookup_field (Field f) fields with
  | None => true
  | Some x => matchesFilter x f
  end.

(** The filter is an equality test on an exported field. *)
Definition is_eq_filter (f : Filter) : Prop :=
  is_exported (Field f) = true /\ Operator f = FilterEquals.

(** The entity passes the equality filter: it has the field with exactly
    the filter's value, or it has no such field. *)
Definition passes_eq (x : Value) (f : Filter) : Prop :=
  field_of x (Field f) = Some (FValue f) \/ field_of x (Field f) = None.



(** A session cache manager after its [Start]. *)
Definition sample_entity : EntityCacheManager * Heap :=
  match EntityCacheManager.Start
          (NewSessionCacheManager (Some (mkService "sessions")) DefaultCacheConfig) [] with
  | Ok (em, h, _) => (em, h)
  | Panic _ => (NewSessionCacheManager None DefaultCacheConfig, [])
  end.

(** The record an event leaves under its own id, given the record [o] that
    was there, and the item count it leaves, given the count [n]. *)
Definition record_after (o : option cacheItem) (t_stamp t_version : Time.Time)
    (e : Event) : option cacheItem :=
  if String.eqb (extractID (Payload e)) "" then o
  else
    match Type_ e with
    | CreatedEvent | UpdatedEvent =>
        Some (mkCacheItem (Payload e) t_stamp (Time.UnixNano t_version)
                          (match o with Some existing => hits existing | None => 0 end))
    | DeletedEvent => None
    | OtherEvent _ => o
    end.

Definition count_after (o : option cacheItem) (e : Event) (n : Z) : Z :=
  if String.eqb (extractID (Payload e)) "" then n
  else
    match Type_ e, o with
    | (CreatedEvent | UpdatedEvent), None => Int64.incr n
    | DeletedEvent, Some _ => Int64.decr n
    | _, _ => n
    end.

(** * Properties *)

(** ** Arithmetic of [int64] counters *)

Module Int64Facts.
Import Int64.

Lemma wrap64_in_range n : in_range n -> wrap64 n = n.
Proof.
  unfold in_range, wrap64, min_value, max_value, half_modulus, modulus.
  intros H. rewrite Z.mod_small; lia.
Qed.

Lemma wrap64_range n : in_range (wrap64 n).
Proof.
  unfold in_range, wrap64, min_value, max_value, half_modulus, modulus.
  pose proof (Z.mod_pos_bound (n + 2 ^ 63) (2 ^ 64)). lia.
Qed.

Lemma wrap64_add_idemp n k : wrap64 (wrap64 n + k) = wrap64 (n + k).
Proof.
  unfold wrap64.
  replace ((n + half_modulus) mod modulus - half_modulus + k + half_modulus)
    with ((n + half_modulus) mod modulus + k) by lia.
  rewrite Zplus_mod_idemp_l. f_equal. f_equal. lia.
Qed.

Lemma decr_iter n k : 0 <= k -> decr (wrap64 (n - k)) = wrap64 (n - (k + 1)).
Proof.
  intros _. unfold decr.
  replace (wrap64 (n - k) - 1) with (wrap64 (n - k) + (-1)) by lia.
  rewrite wrap64_add_idemp. f_equal. lia.
Qed.

End Int64Facts.

(** ** Deep equality is structural equality *)


Lemma DeepEqual_eq (x y : Value) : reflect.DeepEqual x y = true <-> x = y.
Proof.
  revert y. induction x as [| b | n | n | s | elems IH | fields IH | target IH]
    using Value_nested_ind; intros y; destruct y; simpl;
    try (split; [discriminate | intros H; discriminate H]).
  - tauto.
  - rewrite Bool.eqb_true_iff. split; congruence.
  - rewrite Z.eqb_eq. split; congruence.
  - rewrite Z.eqb_eq. split; congruence.
  - rewrite String.eqb_eq. split; congruence.
  - revert elems0. induction IH as [| a l Ha Hl IHl]; intros [| b l2];
      try (split; [discriminate | intros H; discriminate H]); [tauto |].
    rewrite andb_true_iff, Ha, IHl. split.
    + intros [-> H]. congruence.
    + intros H. injection H as -> ->. tauto.
  - revert fields0. induction IH as [| [n a] l Ha Hl IHl]; intros [| [m b] l2];
      try (split; [discriminate | intros H; discriminate H]); [tauto |].
    simpl in Ha.
    rewrite !andb_true_iff, String.eqb_eq, Ha, IHl. split.
    + intros [[-> ->] H]. congruence.
    + intros H. injection H as -> -> ->. tauto.
  - rewrite IH. split; congruence.
Qed.

(** ** Construction and configuration defaults *)

(** ** Making channels *)

Lemma make_chan_inv {A : Type} (e n : Z) (ch : Chan A) :
  make_chan e n = Ok ch -> ch = mkChan n [] false.
Proof.
  unfold make_chan. cbv zeta.
  destruct ((maxAlloc - hchanSize <? e * n) || (n <? 0)); [discriminate |].
  intros H. injection H as <-. reflexivity.
Qed.

Lemma make_chan_Panic {A : Type} (e n : Z) msg :
  make_chan (A := A) e n = Panic msg -> msg = "makechan: size out of range".
Proof.
  unfold make_chan. cbv zeta.
  destruct ((maxAlloc - hchanSize <? e * n) || (n <? 0)); [| discriminate].
  intros H. injection H as <-. reflexivity.
Qed.

Lemma make_chan_negative {A : Type} (e n : Z) :
  n < 0 -> make_chan (A := A) e n = Panic "makechan: size out of range".
Proof.
  intros H. unfold make_chan. cbv zeta.
  replace (n <? 0) with true by (symmetry; apply Z.ltb_lt, H).
  rewrite orb_true_r. reflexivity.
Qed.

Lemma make_chan_returns_iff {A : Type} (e n : Z) :
  (exists ch : Chan A, make_chan e n = Ok ch) <->
  0 <= n /\ e * n <= maxAlloc - hchanSize.
Proof.
  unfold make_chan. cbv zeta. split.
  - intros [ch H].
    destruct (maxAlloc - hchanSize <? e * n) eqn:E1; [discriminate |].
    destruct (n <? 0) eqn:E2; [discriminate |].
    apply Z.ltb_ge in E1, E2. lia.
  - intros [H1 H2].
    replace (maxAlloc - hchanSize <? e * n) with false
      by (symmetry; apply Z.ltb_ge, H2).
    replace (n <? 0) with false by (symmetry; apply Z.ltb_ge, H1).
    eexists. reflexivity.
Qed.

Lemma round_up_bounds n a : 0 < a -> n <= round_up n a < n + a.
Proof.
  intros Ha. unfold round_up.
  pose proof (Z.div_mod (n + a - 1) a ltac:(lia)) as Hdm.
  pose proof (Z.mod_pos_bound (n + a - 1) a Ha) as Hm.
  nia.
Qed.

Lemma result_size_bounds d : d + 49 <= result_size d < d + 65.
Proof.
  unfold result_size.
  pose proof (round_up_bounds d 8 ltac:(lia)).
  pose proof (round_up_bounds (round_up d 8 + 16 + 1) 8 ltac:(lia)).
  lia.
Qed.

Lemma result_size_TestData : result_size (size_of zero_TestData) = 96.
Proof. reflexivity. Qed.

Lemma result_size_slice : result_size slice_size = 80.
Proof. reflexivity. Qed.

(** [make] returns the result channel of [List] and [Query] exactly for
    the buffer sizes from 0 to 3518437208882, the number of 80-byte
    elements that fit. *)
Lemma List_makes_chan_iff c :
  List_makes_chan c <-> 0 <= BufferSize (config c) <= 3518437208882.
Proof.
  unfold List_makes_chan. rewrite make_chan_returns_iff, result_size_slice.
  unfold maxAlloc, hchanSize. lia.
Qed.

Lemma Get_makes_chan_iff zeroT c :
  Get_makes_chan zeroT c <->
  0 <= BufferSize (config c) /\
  result_size (size_of zeroT) * BufferSize (config c) <= maxAlloc - hchanSize.
Proof. unfold Get_makes_chan. apply make_chan_returns_iff. Qed.

(** For entities of less than 64 KiB (the compiler refuses channels of
    larger elements), [make] returns the result channels for every buffer
    size from 0 to 2^31. *)
Lemma Get_makes_chan_modest zeroT c :
  0 <= size_of zeroT < 2 ^ 16 ->
  0 <= BufferSize (config c) <= 2 ^ 31 ->
  Get_makes_chan zeroT c /\ List_makes_chan c.
Proof.
  intros Hs Hb. split.
  - apply Get_makes_chan_iff. split; [lia |].
    pose proof (result_size_bounds (size_of zeroT)) as Hr.
    unfold maxAlloc, hchanSize. nia.
  - apply List_makes_chan_iff. lia.
Qed.

(** Case analysis on the [make] of the goal: the channel made, or the
    panic. *)
Ltac case_make :=
  match goal with
  | |- context [@make_chan ?A ?e ?n] =>
      let E := fresh "Emake" in
      destruct (@make_chan A e n) as [? | ?] eqn:E;
      [apply make_chan_inv in E; subst; simpl | simpl]
  end.

(** A hypothesis that [make] returns, used in the goal. *)
Ltac use_make H :=
  let ch := fresh "ch" in
  let E := fresh "Emake" in
  destruct H as [ch E];
  pose proof (make_chan_inv _ _ _ E); subst ch;
  rewrite E; simpl.

Lemma NewStreamCache_default :
  NewStreamCache DefaultCacheConfig (Some "broker") = Ok default_cache.
Proof. reflexivity. Qed.

Lemma NewStreamCache_tiny :
  NewStreamCache tiny_config (Some "broker") = Ok tiny_cache.
Proof. reflexivity. Qed.

Lemma Get_capacity zeroT c now sel id c' ch :
  StreamCache.Get zeroT c now sel id = Ok (c', ch) ->
  capacity ch = BufferSize (config c).
Proof.
  unfold StreamCache.Get. case_make; [| discriminate].
  destruct (items c !! id) as [item |];
    [destruct (negb (isExpired c now item)) |];
    destruct sel; intros H; injection H as _ <-; reflexivity.
Qed.

Lemma List_capacity c now sel filters ch :
  StreamCache.List c now sel filters = Ok ch ->
  capacity ch = BufferSize (config c).
Proof.
  unfold StreamCache.List. case_make; [| discriminate].
  destruct (StreamCache.List_collect _ _ _ _); simpl; [| discriminate].
  destruct sel; intros H; injection H as <-; reflexivity.
Qed.

Lemma Query_forward_capacity {A : Type} (results : list A) i sels (ch : Chan A) :
  capacity (StreamCache.Query_forward results i sels ch) = capacity ch.
Proof.
  revert i ch. induction results as [| r results IH]; intros i ch; [reflexivity |].
  simpl. destruct (sels i); [| reflexivity]. rewrite IH. reflexivity.
Qed.

Lemma Query_capacity c now sel sels q ch :
  StreamCache.Query c now sel sels q = Ok ch ->
  capacity ch = BufferSize (config c).
Proof.
  unfold StreamCache.Query. case_make; [| discriminate].
  destruct (StreamCache.List _ _ _ _); simpl; [| discriminate].
  intros H. injection H as <-. simpl. apply Query_forward_capacity.
Qed.

(** C10. Defaulting looks at the TTL only: a zero TTL replaces the whole
    configuration by the defaults (5 min, 1000, 1 min, 64) in both
    constructors; with a non-zero TTL every field is used as supplied, the
    cleanup interval going to the ticker unchecked and the buffer size being
    the capacity of the result channels (zero: unbuffered). *)
Theorem config_defaulting_keyed_on_TTL
    (cfg : CacheConfig) (sub : option EventSource) (ss ms hs : option Service) :
  DefaultCacheConfig = mkCacheConfig (5 * Time.Minute) 1000 (1 * Time.Minute) 64 /\
  (TTL cfg = 0 ->
     manager_config (NewManager ss ms hs cfg) = DefaultCacheConfig /\
     exists c, NewStreamCache cfg sub = Ok c /\ config c = DefaultCacheConfig) /\
  (TTL cfg <> 0 ->
     manager_config (NewManager ss ms hs cfg) = cfg /\
     NewStreamCache cfg sub =
       (let! ticker := NewTicker (CleanupInterval cfg) in
        Ok (mkStreamCache cfg ∅ zero_stats (Some ticker) false sub false)) /\
     forall c, NewStreamCache cfg sub = Ok c ->
       config c = cfg /\
       (forall zeroT now sel id c' ch,
          StreamCache.Get zeroT c now sel id = Ok (c', ch) ->
          capacity ch = BufferSize cfg) /\
       (forall now sel filters ch,
          StreamCache.List c now sel filters = Ok ch ->
          capacity ch = BufferSize cfg) /\
       (forall now sel sels q ch,
          StreamCache.Query c now sel sels q = Ok ch ->
          capacity ch = BufferSize cfg)).
Proof.
  split; [reflexivity |]. split.
  - intros H0. unfold NewManager, NewStreamCache. rewrite H0. simpl.
    split; [reflexivity |]. eexists. split; reflexivity.
  - intros Hne. unfold NewManager, NewStreamCache.
    destruct (Z.eqb_spec (TTL cfg) 0) as [E | _]; [contradiction |].
    split; [reflexivity |]. split; [reflexivity |].
    intros c Hc.
    assert (Hcfg : config c = cfg).
    { destruct (NewTicker (CleanupInterval cfg)); simpl in Hc;
        [injection Hc as <-; reflexivity | discriminate]. }
    split; [exact Hcfg |]. rewrite <- Hcfg. split; [| split].
    + intros zeroT now sel id c' ch. apply Get_capacity.
    + intros now sel filters ch. apply List_capacity.
    + intros now sel sels q ch. apply Query_capacity.
Qed.

(** A configuration with only the TTL and the cleanup interval set: the
    other fields stay zero. *)
Lemma config_defaulting_keyed_on_TTL_witness :
  let cfg := mkCacheConfig (30 * Time.Second) 0 (5 * Time.Second) 0 in
  manager_config (NewManager None None None cfg) = cfg /\
  (forall c, NewStreamCache cfg None = Ok c ->
     config c = cfg /\
     forall zeroT now sel id c' ch,
       StreamCache.Get zeroT c now sel id = Ok (c', ch) -> capacity ch = 0) /\
  manager_config (NewManager None None None (mkCacheConfig 0 7 7 7))
    = DefaultCacheConfig.
Proof.
  intros cfg.
  destruct (config_defaulting_keyed_on_TTL cfg None None None None)
    as (_ & _ & Hnz).
  destruct (config_defaulting_keyed_on_TTL (mkCacheConfig 0 7 7 7) None None None None)
    as (_ & Hz & _).
  destruct (Hnz ltac:(discriminate)) as (Hm & _ & Hc).
  destruct (Hz eq_refl) as (Hd & _).
  split; [exact Hm |]. split; [| exact Hd].
  intros c Hnew. destruct (Hc c Hnew) as (H1 & H2 & _). split; assumption.
Defined.

(** With a non-zero TTL and a zero cleanup interval the ticker is handed
    the zero interval, which it refuses. *)
Lemma NewStreamCache_zero_CleanupInterval :
  NewStreamCache (mkCacheConfig (30 * Time.Second) 100 0 8) None
  = Panic "non-positive interval for NewTicker".
Proof. reflexivity. Qed.

(** ** Filters *)

(** C3 as stated fails: [gt] between an int field and a string value is not
    meaningful, and the filter evaluates to true. *)
Lemma matchesFilter_gt_mismatch_is_true :
  matchesFilter (VInt 25) (mkFilter "Age" FilterGreater (VString "x")) = true /\
  matchesFilters alice [mkFilter "Age" FilterGreater (VString "x")] = Ok true /\
  matchesFilters alice [mkFilter "Name" FilterContains (VInt 3)] <> Ok false.
Proof. repeat split; discriminate. Qed.

(** C3, amended.  [eq] and [ne] compare by deep equality (values of
    different dynamic types are unequal); every other operator evaluates to
    true whatever the operands; evaluation of one filter never fails; on an
    entity, a filter on an exported field it has is the filter on that
    field's value, and a filter on a field it lacks is skipped. *)
Theorem matchesFilter_eq_ne_else_true (value : Value) (filter : Filter) :
  (Operator filter = FilterEquals ->
     matchesFilter value filter = reflect.DeepEqual value (FValue filter) /\
     (matchesFilter value filter = true <-> value = FValue filter)) /\
  (Operator filter = FilterNotEquals ->
     matchesFilter value filter = negb (reflect.DeepEqual value (FValue filter)) /\
     (matchesFilter value filter = true <-> value <> FValue filter)) /\
  (Operator filter <> FilterEquals -> Operator filter <> FilterNotEquals ->
     matchesFilter value filter = true) /\
  (forall fields,
     reflect.lookup_field (Field filter) fields = Some value ->
     is_exported (Field filter) = true ->
     matchesFilters (VStruct fields) [filter] = Ok (matchesFilter value filter)) /\
  (forall fields,
     reflect.lookup_field (Field filter) fields = None ->
     matchesFilters (VStruct fields) [filter] = Ok true).
Proof.
  unfold matchesFilter. repeat split.
  - rewrite H. reflexivity.
  - rewrite H. simpl. apply DeepEqual_eq.
  - rewrite H. simpl. intros E. rewrite E. apply DeepEqual_eq. reflexivity.
  - rewrite H. reflexivity.
  - rewrite H. simpl. rewrite negb_true_iff. intros E He.
    apply DeepEqual_eq in He. congruence.
  - rewrite H. simpl. rewrite negb_true_iff. intros Hne.
    destruct (reflect.DeepEqual value (FValue filter)) eqn:E; [| reflexivity].
    apply DeepEqual_eq in E. contradiction.
  - intros Heq Hne.
    destruct (String.eqb_spec (Operator filter) FilterEquals); [contradiction |].
    destruct (String.eqb_spec (Operator filter) FilterNotEquals); [contradiction |].
    reflexivity.
  - intros fields Hf Hexp. unfold matchesFilters. simpl.
    rewrite Hf. simpl. unfold Interface. rewrite Hexp. simpl.
    unfold matchesFilter.
    destruct (String.eqb (Operator filter) FilterEquals);
      [destruct (reflect.DeepEqual value (FValue filter)); reflexivity |].
    destruct (String.eqb (Operator filter) FilterNotEquals);
      [destruct (reflect.DeepEqual value (FValue filter)); reflexivity |].
    reflexivity.
  - intros fields Hf. unfold matchesFilters. simpl. rewrite Hf. reflexivity.
Qed.

Lemma matchesFilter_eq_ne_else_true_witness :
  matchesFilter (VInt 30) (mkFilter "Age" FilterEquals (VInt 30)) = true /\
  matchesFilter (VInt 30) (mkFilter "Age" FilterNotEquals (VInt64 30)) = true /\
  matchesFilter (VInt 30) (mkFilter "Age" FilterLess (VInt 10)) = true /\
  matchesFilters bob [mkFilter "Age" FilterEquals (VInt 30)] = Ok true /\
  matchesFilters bob [mkFilter "session_id" FilterEquals (VString "S")] = Ok true.
Proof.
  destruct (matchesFilter_eq_ne_else_true
              (VInt 30) (mkFilter "Age" FilterEquals (VInt 30)))
    as (Heq & _ & _ & Hfield & _).
  destruct (matchesFilter_eq_ne_else_true
              (VInt 30) (mkFilter "Age" FilterNotEquals (VInt64 30)))
    as (_ & Hne & _).
  destruct (matchesFilter_eq_ne_else_true
              (VInt 30) (mkFilter "Age" FilterLess (VInt 10)))
    as (_ & _ & Hother & _).
  destruct (matchesFilter_eq_ne_else_true
              (VInt 30) (mkFilter "session_id" FilterEquals (VString "S")))
    as (_ & _ & _ & _ & Hmissing).
  split; [apply (Heq eq_refl); reflexivity |].
  split; [apply (Hne eq_refl); discriminate |].
  split; [apply Hother; discriminate |].
  unfold bob, TestData. split.
  - rewrite (Hfield [("ID", VString "b"); ("Name", VString "Bob"); ("Age", VInt 30)]
               eq_refl eq_refl).
    reflexivity.
  - apply Hmissing. reflexivity.
Defined.

(** ** Closing a cache *)

(** C7 as stated fails: the second [Close] on the same cache panics. *)
Lemma Close_twice_panics :
  exists c1,
    StreamCache.Close default_cache = Ok (c1, None) /\
    StreamCache.Close c1 = Panic "close of closed channel" /\
    ~ (exists c2, StreamCache.Close c1 = Ok (c2, None)).
Proof.
  eexists. split; [reflexivity |]. split; [reflexivity |].
  intros [c2 H]. discriminate H.
Qed.

(** C7, amended.  On a cache that has not been closed, [Close] closes
    [done] and [eventDone], the signals on which the cleanup task and the
    ingest task return, stops the cleanup ticker, leaves configuration,
    index and statistics alone and returns nil; on the cache so obtained any
    further [Close] panics instead of returning. *)
Theorem Close_once_then_panics (c : streamCache) :
  done c = false -> eventDone c = false ->
  exists c1,
    StreamCache.Close c = Ok (c1, None) /\
    done c1 = true /\ eventDone c1 = true /\
    (forall t, cleanup c = Some t ->
       cleanup c1 = Some (Ticker_Stop t) /\ stopped (Ticker_Stop t) = true) /\
    config c1 = config c /\ items c1 = items c /\ stats c1 = stats c /\
    exists msg, StreamCache.Close c1 = Panic msg.
Proof.
  intros Hd He. unfold StreamCache.Close. rewrite Hd, He.
  eexists. split; [reflexivity |]. simpl.
  split; [reflexivity |]. split; [reflexivity |].
  split; [intros t Ht; rewrite Ht; split; reflexivity |].
  split; [reflexivity |]. split; [reflexivity |]. split; [reflexivity |].
  eexists. reflexivity.
Qed.

Lemma Close_once_then_panics_witness :
  exists c1,
    StreamCache.Close default_cache = Ok (c1, None) /\
    done c1 = true /\ eventDone c1 = true /\
    exists msg, StreamCache.Close c1 = Panic msg.
Proof.
  destruct (Close_once_then_panics default_cache eq_refl eq_refl)
    as (c1 & H1 & H2 & H3 & _ & _ & _ & _ & H4).
  exists c1. repeat split; assumption.
Defined.

(** ** Explicit invalidation *)

Lemma Invalidate_snoc c ids id :
  StreamCache.Invalidate c (ids ++ [id]) =
  StreamCache.Invalidate (StreamCache.Invalidate c ids) [id].
Proof. unfold StreamCache.Invalidate. rewrite fold_left_app. reflexivity. Qed.

Lemma Invalidate_items c ids id :
  items (StreamCache.Invalidate c ids) !! id =
  if decide (id ∈ ids) then None else items c !! id.
Proof.
  induction ids as [| k ids IH] using rev_ind.
  - reflexivity.
  - rewrite Invalidate_snoc. simpl.
    destruct (decide (k = id)) as [-> | Hne].
    + rewrite lookup_delete_eq. rewrite decide_True; [reflexivity |].
      apply elem_of_app. right. apply list_elem_of_singleton. reflexivity.
    + rewrite lookup_delete_ne by exact Hne. rewrite IH.
      destruct (decide (id ∈ ids)) as [Hin | Hnin].
      * rewrite decide_True; [reflexivity |]. apply elem_of_app. left. exact Hin.
      * rewrite decide_False; [reflexivity |].
        rewrite elem_of_app, list_elem_of_singleton. intros [H | H]; congruence.
Qed.

Lemma Invalidate_ItemCount c ids :
  Int64.in_range (ItemCount (stats c)) ->
  ItemCount (stats (StreamCache.Invalidate c ids)) =
  Int64.wrap64 (ItemCount (stats c) - Z.of_nat (length ids)).
Proof.
  intros Hr. induction ids as [| k ids IH] using rev_ind.
  - simpl. rewrite Z.sub_0_r. symmetry. apply Int64Facts.wrap64_in_range, Hr.
  - rewrite Invalidate_snoc. simpl. rewrite IH.
    rewrite Int64Facts.decr_iter by lia.
    f_equal. rewrite length_app. simpl. lia.
Qed.

Lemma Invalidate_absent c id :
  items c !! id = None -> items (StreamCache.Invalidate c [id]) = items c.
Proof. intros H. simpl. apply delete_id, H. Qed.

(** C9. [Invalidate] removes exactly the listed ids from the index and
    decrements [ItemCount] once per listed id (on 64 bits), present or not;
    invalidating an absent id changes no record and still lowers the count,
    which can thereby drop below the number of records and below zero. *)
Theorem Invalidate_decrements_per_listed_id (c : streamCache) (ids : list string) :
  Int64.in_range (ItemCount (stats c)) ->
  (forall id, items (StreamCache.Invalidate c ids) !! id =
              if decide (id ∈ ids) then None else items c !! id) /\
  ItemCount (StreamCache.Stats (StreamCache.Invalidate c ids)) =
    Int64.wrap64 (ItemCount (StreamCache.Stats c) - Z.of_nat (length ids)) /\
  (forall id, items c !! id = None ->
     items (StreamCache.Invalidate c [id]) = items c /\
     ItemCount (StreamCache.Stats (StreamCache.Invalidate c [id])) =
       Int64.decr (ItemCount (StreamCache.Stats c))) /\
  (let c1 := ingest default_cache [created 10 alice] in
   let c2 := StreamCache.Invalidate c1 ["zz"; "zz"] in
   items c2 = items c1 /\ size (items c2) = 1%nat /\
   ItemCount (StreamCache.Stats c1) = 1 /\
   ItemCount (StreamCache.Stats c2) = -1).
Proof.
  intros Hr. split; [intros id; apply Invalidate_items |].
  split; [apply Invalidate_ItemCount, Hr |].
  split.
  - intros id Hid. split; [apply Invalidate_absent, Hid | reflexivity].
  - vm_compute. repeat split.
Qed.

Lemma Invalidate_decrements_per_listed_id_witness :
  let c := ingest default_cache [created 10 alice; created 20 bob] in
  items (StreamCache.Invalidate c ["a"; "zz"]) !! "a" = None /\
  items (StreamCache.Invalidate c ["a"; "zz"]) !! "b" = items c !! "b" /\
  ItemCount (StreamCache.Stats (StreamCache.Invalidate c ["a"; "zz"])) = 0.
Proof.
  intros c.
  assert (Hr : Int64.in_range (ItemCount (stats c))) by (vm_compute; split; discriminate).
  destruct (Invalidate_decrements_per_listed_id c ["a"; "zz"] Hr) as (Hi & Hc & _).
  split; [rewrite Hi; reflexivity |].
  split; [rewrite Hi; reflexivity |].
  rewrite Hc. reflexivity.
Defined.

(** ** Lifecycle of the manager *)

Lemma NewStreamCache_fresh cfg sub c :
  NewStreamCache cfg sub = Ok c ->
  items c = ∅ /\ stats c = zero_stats /\ done c = false /\ eventDone c = false.
Proof.
  unfold NewStreamCache.
  destruct (NewTicker _); simpl; intros H; [| discriminate].
  injection H as <-. repeat split.
Qed.

Lemma EntityCacheManager_Start_inv svc cfg h em h' e :
  EntityCacheManager.Start (EntityCacheManager.New svc cfg) h = Ok (em, h', e) ->
  e = None /\
  exists s c, svc = Some s /\ NewStreamCache cfg (Some (Subscribe s)) = Ok c /\
              h' = h ++ [c] /\ em = mkEntityCacheManager (Some (length h)) svc cfg.
Proof.
  unfold EntityCacheManager.Start, EntityCacheManager.New, NewEntityCache. simpl.
  destruct svc as [s |]; simpl; [| discriminate].
  destruct (NewStreamCache cfg (Some (Subscribe s))) as [c |] eqn:E; simpl;
    [| discriminate].
  intros H. injection H as <- <- <-. split; [reflexivity |].
  exists s, c. repeat split; auto.
Qed.

Lemma Manager_Start_inv m h m' h' e :
  started m = false ->
  Manager.Start m h = Ok (m', h', e) ->
  e = None /\
  exists s1 s2 c1 c2,
    sessionService m = Some s1 /\ messageService m = Some s2 /\
    NewStreamCache (manager_config m) (Some (Subscribe s1)) = Ok c1 /\
    NewStreamCache (manager_config m) (Some (Subscribe s2)) = Ok c2 /\
    h' = h ++ [c1; c2] /\
    m' = mkManager (manager_config m)
           (Some (mkEntityCacheManager (Some (length h)) (sessionService m)
                                       (manager_config m)))
           (Some (mkEntityCacheManager (Some (S (length h))) (messageService m)
                                       (manager_config m)))
           (sessionService m) (messageService m) (historyService m)
           (Some false) true.
Proof.
  intros Hs. unfold Manager.Start. rewrite Hs.
  unfold NewSessionCacheManager, NewMessageCacheManager.
  destruct (EntityCacheManager.Start
              (EntityCacheManager.New (sessionService m) (manager_config m)) h)
    as [[[sm h1] e1] |] eqn:E1; simpl; [| discriminate].
  apply EntityCacheManager_Start_inv in E1 as (-> & s1 & c1 & Hs1 & Hc1 & -> & ->).
  destruct (EntityCacheManager.Start
              (EntityCacheManager.New (messageService m) (manager_config m))
              (h ++ [c1]))
    as [[[mm h2] e2] |] eqn:E2; simpl; [| discriminate].
  apply EntityCacheManager_Start_inv in E2 as (-> & s2 & c2 & Hs2 & Hc2 & -> & ->).
  intros H. injection H as <- <- <-. split; [reflexivity |].
  exists s1, s2, c1, c2. rewrite <- app_assoc. simpl.
  rewrite length_app, Nat.add_1_r. repeat split; assumption.
Qed.

Lemma Manager_Start_ok m h s1 s2 c1 c2 :
  started m = false ->
  sessionService m = Some s1 -> messageService m = Some s2 ->
  NewStreamCache (manager_config m) (Some (Subscribe s1)) = Ok c1 ->
  NewStreamCache (manager_config m) (Some (Subscribe s2)) = Ok c2 ->
  exists m', Manager.Start m h = Ok (m', h ++ [c1; c2], None).
Proof.
  intros Hs H1 H2 Hc1 Hc2. unfold Manager.Start. rewrite Hs.
  unfold NewSessionCacheManager, NewMessageCacheManager,
    EntityCacheManager.Start, EntityCacheManager.New, NewEntityCache. simpl.
  rewrite H1, H2. simpl. rewrite Hc1. simpl. rewrite Hc2. simpl.
  rewrite <- app_assoc. eexists. reflexivity.
Qed.

Lemma Manager_Stop_inv m h m' h' e :
  started m = true ->
  Manager.Stop m h = Ok (m', h', e) ->
  started m' = false /\ manager_config m' = manager_config m /\
  sessionService m' = sessionService m /\ messageService m' = messageService m /\
  length h' = length h.
Proof.
  intros Hs. unfold Manager.Stop. rewrite Hs. simpl.
  assert (Hstop : forall em h0 errs h1 errs1,
             Manager.stop_entity em h0 errs = Ok (h1, errs1) ->
             length h1 = length h0).
  { intros em h0 errs h1 errs1. unfold Manager.stop_entity, EntityCacheManager.Stop.
    destruct em as [em |]; [| intros H; injection H as <- _; reflexivity].
    destruct (cache em) as [p |]; simpl; [| intros H; injection H as <- _; reflexivity].
    destruct (h0 !! p) as [c |]; simpl; [| discriminate].
    destruct (StreamCache.Close c) as [[c' err] |]; simpl; [| discriminate].
    destruct err; intros H; injection H as <- _; apply length_insert. }
  destruct (Manager.stop_entity (sessionManager m) h []) as [[h1 errs1] |] eqn:E1;
    simpl; [| discriminate].
  destruct (Manager.stop_entity (messageManager m) h1 errs1) as [[h2 errs2] |] eqn:E2;
    simpl; [| discriminate].
  intros H. injection H as <- <- _. simpl.
  apply Hstop in E1, E2. repeat split. congruence.
Qed.

(** C8. [Start] on a started manager returns nil and changes nothing, in
    particular it allocates no cache; [Stop] on a manager that is not
    started returns nil and changes nothing; and after a successful [Start]
    followed by a [Stop], a new [Start] succeeds and installs two caches
    that did not exist before, both empty and open, next to the old ones. *)
Theorem Manager_Start_Stop_idempotent (m : Manager) (h : Heap) :
  (started m = true -> Manager.Start m h = Ok (m, h, None)) /\
  (started m = false -> Manager.Stop m h = Ok (m, h, None)) /\
  (forall m1 h1 h1' m2 h2 e,
     started m = false ->
     Manager.Start m h = Ok (m1, h1, None) ->
     (length h1 <= length h1')%nat ->
     Manager.Stop m1 h1' = Ok (m2, h2, e) ->
     exists m3 h3 ps pm,
       Manager.Start m2 h2 = Ok (m3, h3, None) /\
       Manager.IsStarted m3 = true /\
       Manager.Sessions m3 = Some ps /\ Manager.Messages m3 = Some pm /\
       ps <> pm /\
       fresh_cache_at h2 h3 ps /\ fresh_cache_at h2 h3 pm /\
       Manager.Sessions m3 <> Manager.Sessions m1 /\
       Manager.Messages m3 <> Manager.Messages m1 /\
       take (length h2) h3 = h2).
Proof.
  split; [| split].
  - intros Hs. unfold Manager.Start. rewrite Hs. reflexivity.
  - intros Hs. unfold Manager.Stop. rewrite Hs. reflexivity.
  - intros m1 h1 h1' m2 h2 e Hs Hstart Hlen Hstop.
    destruct (Manager_Start_inv _ _ _ _ _ Hs Hstart)
      as (_ & s1 & s2 & c1 & c2 & Hs1 & Hs2 & Hc1 & Hc2 & Hh1 & Hm1).
    assert (Hs1' : started m1 = true) by (rewrite Hm1; reflexivity).
    destruct (Manager_Stop_inv _ _ _ _ _ Hs1' Hstop)
      as (Hst2 & Hcfg2 & Hss2 & Hms2 & Hlen2).
    assert (Hcfg1 : manager_config m1 = manager_config m) by (rewrite Hm1; reflexivity).
    assert (Hss1 : sessionService m1 = Some s1) by (rewrite Hm1; exact Hs1).
    assert (Hms1 : messageService m1 = Some s2) by (rewrite Hm1; exact Hs2).
    destruct (Manager_Start_ok m2 h2 s1 s2 c1 c2 Hst2) as [m3 Hstart3];
      try congruence.
    destruct (Manager_Start_inv _ _ _ _ _ Hst2 Hstart3)
      as (_ & s1' & s2' & c1' & c2' & _ & _ & Hc1' & Hc2' & Hh3 & Hm3).
    apply app_inv_head in Hh3. injection Hh3 as <- <-.
    assert (Hl1 : length h1 = (length h + 2)%nat).
    { rewrite Hh1, length_app. reflexivity. }
    assert (Hlk1 : (h2 ++ [c1; c2]) !! length h2 = Some c1).
    { rewrite lookup_app_r by lia. rewrite Nat.sub_diag. reflexivity. }
    assert (Hlk2 : (h2 ++ [c1; c2]) !! S (length h2) = Some c2).
    { rewrite lookup_app_r by lia.
      replace (S (length h2) - length h2)%nat with 1%nat by lia. reflexivity. }
    exists m3, (h2 ++ [c1; c2]), (length h2), (S (length h2)).
    split; [exact Hstart3 |].
    rewrite Hm3. unfold Manager.IsStarted, Manager.Sessions, Manager.Messages. simpl.
    split; [reflexivity |]. split; [reflexivity |]. split; [reflexivity |].
    split; [lia |].
    split.
    { split; [lia |]. exists c1. split; [exact Hlk1 |].
      apply (NewStreamCache_fresh _ _ _ Hc1). }
    split.
    { split; [lia |]. exists c2. split; [exact Hlk2 |].
      apply (NewStreamCache_fresh _ _ _ Hc2). }
    rewrite Hm1. simpl.
    split; [intros H; injection H; lia |].
    split; [intros H; injection H; lia |].
    apply take_app_length.
Qed.

Lemma Manager_Start_Stop_idempotent_witness :
  let '(m1, h1) := sample_started in
  let '(m2, h2) := sample_stopped in
  Manager.Start sample_manager [] = Ok (m1, h1, None) /\
  Manager.Start m1 h1 = Ok (m1, h1, None) /\
  Manager.Stop m1 h1 = Ok (m2, h2, None) /\
  Manager.Stop m2 h2 = Ok (m2, h2, None) /\
  exists m3 h3 ps pm,
    Manager.Start m2 h2 = Ok (m3, h3, None) /\
    Manager.Sessions m3 = Some ps /\ Manager.Messages m3 = Some pm /\
    fresh_cache_at h2 h3 ps /\ fresh_cache_at h2 h3 pm /\
    Manager.Sessions m3 <> Manager.Sessions m1.
Proof.
  destruct sample_started as [m1 h1] eqn:E1.
  destruct sample_stopped as [m2 h2] eqn:E2.
  vm_compute in E1. injection E1 as <- <-.
  vm_compute in E2. injection E2 as <- <-.
  split; [reflexivity |].
  split; [apply Manager_Start_Stop_idempotent; reflexivity |].
  split; [reflexivity |].
  split; [apply Manager_Start_Stop_idempotent; reflexivity |].
  destruct (Manager_Start_Stop_idempotent sample_manager []) as (_ & _ & H).
  edestruct H as (m3 & h3 & ps & pm & H1 & _ & H2 & H3 & _ & H4 & H5 & H6 & _);
    [reflexivity | reflexivity | apply le_n | reflexivity |].
  exists m3, h3, ps, pm.
  exact (conj H1 (conj H2 (conj H3 (conj H4 (conj H5 H6))))).
Defined.

(** ** Event ingestion *)

Lemma handleEvent_fields c t1 t2 e :
  config (handleEvent c t1 t2 e) = config c /\
  done (handleEvent c t1 t2 e) = done c /\
  eventDone (handleEvent c t1 t2 e) = eventDone c.
Proof.
  unfold handleEvent.
  destruct (String.eqb _ ""); [repeat split |].
  destruct (Type_ e); destruct (items c !! extractID (Payload e)); repeat split.
Qed.

Lemma handleEvent_empty_id c t1 t2 e :
  extractID (Payload e) = "" -> handleEvent c t1 t2 e = c.
Proof. intros H. unfold handleEvent. rewrite H. reflexivity. Qed.

Lemma handleEvent_other_id c t1 t2 e k :
  k <> extractID (Payload e) ->
  items (handleEvent c t1 t2 e) !! k = items c !! k.
Proof.
  intros Hne. unfold handleEvent.
  destruct (String.eqb _ ""); [reflexivity |].
  destruct (Type_ e); destruct (items c !! extractID (Payload e)); simpl;
    try reflexivity;
    try (rewrite lookup_insert_ne by congruence; reflexivity).
  rewrite lookup_delete_ne by congruence. reflexivity.
Qed.

Lemma handleEvent_insert c t1 t2 e :
  is_insert e = true ->
  exists h,
    items (handleEvent c t1 t2 e) !! extractID (Payload e) =
      Some (mkCacheItem (Payload e) t1 (Time.UnixNano t2) h) /\
    h = match items c !! extractID (Payload e) with
        | Some existing => hits existing
        | None => 0
        end.
Proof.
  unfold is_insert, handleEvent. intros H.
  destruct (String.eqb (extractID (Payload e)) "");
    [destruct (Type_ e); discriminate |].
  destruct (Type_ e); try discriminate;
    destruct (items c !! extractID (Payload e)) as [existing |]; simpl;
    eexists; (split; [apply lookup_insert_eq | reflexivity]).
Qed.

Lemma handleEvent_delete c t1 t2 e :
  Type_ e = DeletedEvent -> extractID (Payload e) <> "" ->
  items (handleEvent c t1 t2 e) !! extractID (Payload e) = None.
Proof.
  intros H Hid. unfold handleEvent. rewrite H.
  destruct (String.eqb_spec (extractID (Payload e)) "") as [E | _];
    [contradiction |].
  destruct (items c !! extractID (Payload e)) eqn:El; simpl;
    [apply lookup_delete_eq | exact El].
Qed.

Lemma ingest_snoc c evs i :
  ingest c (evs ++ [i]) = handleEvent (ingest c evs) (at_stamp i) (at_version i) (ev i).
Proof. unfold ingest. rewrite fold_left_app. reflexivity. Qed.

Lemma ingest_config c evs : config (ingest c evs) = config c.
Proof.
  induction evs as [| i evs IH] using rev_ind; [reflexivity |].
  rewrite ingest_snoc. rewrite (proj1 (handleEvent_fields _ _ _ _)). exact IH.
Qed.

(** ** Capacity *)

(** C5, which the code violates.  The claim bounds the index by
    [MaxItems], with eviction of the oldest record on an insert that would
    exceed it; with [MaxItems = 1], two Created events leave two records in
    the index, the older one included. *)
Lemma index_exceeds_MaxItems :
  let c := ingest tiny_cache [created 1000 alice; created 2000 bob] in
  MaxItems (config c) = 1 /\
  size (items c) = 2%nat /\
  MaxItems (config c) < Z.of_nat (size (items c)) /\
  (exists item, items c !! "a" = Some item /\ timestamp item = 1000) /\
  ItemCount (stats c) = 2.
Proof.
  vm_compute. repeat split. eexists. split; reflexivity.
Qed.

(** What [handleEvent] does on every insert: a Created or Updated event
    whose id is new to the index adds one record and removes none, whatever
    the configured bound; an index that has reached the bound exceeds it
    afterwards. *)
Lemma handleEvent_insert_never_evicts
    (c : streamCache) (t_stamp t_version : Time.Time) (e : Event) :
  is_insert e = true ->
  items c !! extractID (Payload e) = None ->
  let c' := handleEvent c t_stamp t_version e in
  size (items c') = S (size (items c)) /\
  (forall id item, items c !! id = Some item -> items c' !! id = Some item) /\
  MaxItems (config c') = MaxItems (config c) /\
  (MaxItems (config c) <= Z.of_nat (size (items c)) ->
   MaxItems (config c') < Z.of_nat (size (items c'))).
Proof.
  intros Hins Hnew c'.
  assert (Hitems : items c' = <[extractID (Payload e) :=
                      mkCacheItem (Payload e) t_stamp (Time.UnixNano t_version) 0]>
                     (items c)).
  { unfold c', handleEvent. unfold is_insert in Hins.
    destruct (String.eqb (extractID (Payload e)) "");
      [destruct (Type_ e); discriminate |].
    rewrite Hnew. destruct (Type_ e); try discriminate; reflexivity. }
  assert (Hsize : size (items c') = S (size (items c))).
  { rewrite Hitems. apply map_size_insert_None, Hnew. }
  split; [exact Hsize |]. split.
  - intros id item Hid. rewrite Hitems.
    rewrite lookup_insert_ne; [exact Hid | congruence].
  - assert (Hcfg : config c' = config c) by apply handleEvent_fields.
    rewrite Hcfg, Hsize. split; [reflexivity | lia].
Qed.

Lemma handleEvent_insert_never_evicts_example :
  let c := ingest tiny_cache [created 1000 alice] in
  let c' := handleEvent c 2000 2000 (mkEvent CreatedEvent bob) in
  size (items c') = 2%nat /\
  (forall id item, items c !! id = Some item -> items c' !! id = Some item) /\
  MaxItems (config c') < Z.of_nat (size (items c')).
Proof.
  intros c c'.
  destruct (handleEvent_insert_never_evicts c 2000 2000 (mkEvent CreatedEvent bob)
              eq_refl eq_refl) as (H1 & H2 & _ & H4).
  split; [exact H1 |]. split; [exact H2 |].
  apply H4. vm_compute. discriminate.
Qed.

(** ** Versions *)

Lemma assigned_version_insert c t1 t2 e :
  is_insert e = true ->
  assigned_version (handleEvent c t1 t2 e) e = Some (Time.UnixNano t2).
Proof.
  intros H. unfold assigned_version. rewrite H.
  destruct (handleEvent_insert c t1 t2 e H) as (h & -> & _). reflexivity.
Qed.

Lemma versions_assigned_clock c evs :
  versions_assigned c evs =
  (fun i => Time.UnixNano (at_version i))
    <$> filter (fun i => is_insert (ev i) = true) evs.
Proof.
  revert c. induction evs as [| i evs IH]; intros c; [reflexivity |].
  simpl. rewrite filter_cons.
  destruct (decide (is_insert (ev i) = true)) as [H | H].
  - rewrite assigned_version_insert by exact H. rewrite fmap_cons, IH. reflexivity.
  - unfold assigned_version.
    destruct (is_insert (ev i)); [congruence |]. apply IH.
Qed.

(** C6 as stated fails: the version is the clock reading, so two inserts
    handled at the same reading, or across a backwards step of the clock,
    do not get increasing versions. *)
Lemma versions_repeat_with_the_clock :
  versions_assigned default_cache
    [mkIngest 5000 5000 (mkEvent CreatedEvent alice);
     mkIngest 5000 5000 (mkEvent CreatedEvent bob);
     mkIngest 4000 4000 (mkEvent UpdatedEvent alice)] = [5000; 5000; 4000] /\
  ~ StronglySorted Z.lt [5000; 5000; 4000].
Proof.
  split; [reflexivity |].
  intros H. apply StronglySorted_inv in H as [_ H].
  apply Forall_cons in H as [H _]. lia.
Qed.

Lemma StronglySorted_fmap_filter {A : Type} (f : A -> Z) (P : A -> Prop)
    `{forall x, Decision (P x)} (l : list A) :
  StronglySorted Z.lt (f <$> l) -> StronglySorted Z.lt (f <$> filter P l).
Proof.
  induction l as [| a l IH]; intros Hs; [constructor |].
  rewrite fmap_cons in Hs. apply StronglySorted_inv in Hs as [Hl Ha].
  rewrite filter_cons. destruct (decide (P a)); [| apply IH, Hl].
  rewrite fmap_cons. constructor; [apply IH, Hl |].
  rewrite Forall_forall in Ha. apply Forall_forall. intros x Hx.
  apply Ha. apply list_elem_of_fmap in Hx as (y & -> & Hy).
  apply list_elem_of_filter in Hy as [_ Hy].
  apply list_elem_of_fmap. exists y. split; [reflexivity | exact Hy].
Qed.

(** C6, amended.  The version given to a record by an insert or refresh is
    the Unix-nanosecond reading of the clock taken while the event is
    handled; hence, as long as these readings strictly increase from one
    event to the next (and are representable on 64 bits), every insert or
    refresh receives a strictly greater version than all earlier ones. *)
Theorem versions_increase_with_clock (c : streamCache) (evs : list Ingest) :
  StronglySorted Z.lt (at_version <$> evs) ->
  Forall (fun i => Int64.in_range (at_version i)) evs ->
  versions_assigned c evs =
    at_version <$> filter (fun i => is_insert (ev i) = true) evs /\
  StronglySorted Z.lt (versions_assigned c evs).
Proof.
  intros Hsorted Hrange.
  assert (Heq : versions_assigned c evs =
                at_version <$> filter (fun i => is_insert (ev i) = true) evs).
  { rewrite versions_assigned_clock. apply Forall_fmap_ext.
    rewrite Forall_forall in Hrange. apply Forall_forall. intros i Hi.
    apply list_elem_of_filter in Hi as [_ Hi].
    unfold Time.UnixNano. apply Int64Facts.wrap64_in_range, Hrange, Hi. }
  split; [exact Heq |]. rewrite Heq.
  apply StronglySorted_fmap_filter, Hsorted.
Qed.

Lemma versions_increase_with_clock_witness :
  versions_assigned default_cache
    [mkIngest 1000 1001 (mkEvent CreatedEvent alice);
     mkIngest 2000 2001 (mkEvent DeletedEvent alice);
     mkIngest 3000 3001 (mkEvent UpdatedEvent bob);
     mkIngest 4000 4001 (mkEvent CreatedEvent alice)] = [1001; 3001; 4001] /\
  StronglySorted Z.lt [1001; 3001; 4001].
Proof.
  pose proof (versions_increase_with_clock default_cache
    [mkIngest 1000 1001 (mkEvent CreatedEvent alice);
     mkIngest 2000 2001 (mkEvent DeletedEvent alice);
     mkIngest 3000 3001 (mkEvent UpdatedEvent bob);
     mkIngest 4000 4001 (mkEvent CreatedEvent alice)]) as H.
  destruct H as [H1 H2].
  - repeat constructor.
  - repeat constructor; discriminate.
  - split; [reflexivity | exact H2].
Defined.

(** ** Get after a run of events *)

Lemma last_event_for_snoc id evs i :
  last_event_for id (evs ++ [i]) =
  if decide (event_id i = id) then Some i else last_event_for id evs.
Proof.
  unfold last_event_for. rewrite filter_app, filter_cons, filter_nil.
  destruct (decide (event_id i = id)).
  - apply last_snoc.
  - rewrite app_nil_r. reflexivity.
Qed.

(** The record held for a non-empty [id] after a run of Created, Updated
    and Deleted events is determined by the last event that carries it. *)
Lemma ingest_lookup c evs id :
  id <> "" ->
  Forall (fun i => is_CUD (ev i) = true) evs ->
  match last_event_for id evs with
  | None => items (ingest c evs) !! id = items c !! id
  | Some i =>
      match Type_ (ev i) with
      | CreatedEvent | UpdatedEvent =>
          exists h, items (ingest c evs) !! id =
                    Some (mkCacheItem (Payload (ev i)) (at_stamp i)
                                      (Time.UnixNano (at_version i)) h)
      | _ => items (ingest c evs) !! id = None
      end
  end.
Proof.
  intros Hid. induction evs as [| i evs IH] using rev_ind; intros Hcud.
  - reflexivity.
  - apply Forall_app in Hcud as [Hevs Hi].
    apply Forall_cons in Hi as [Hi _]. specialize (IH Hevs).
    rewrite last_event_for_snoc, ingest_snoc.
    destruct (decide (event_id i = id)) as [E | E].
    + unfold event_id in E. subst id.
      destruct (Type_ (ev i)) eqn:Et.
      * destruct (handleEvent_insert (ingest c evs) (at_stamp i) (at_version i) (ev i))
          as (h & Hh & _).
        { unfold is_insert. rewrite Et.
          destruct (String.eqb_spec (extractID (Payload (ev i))) ""); [contradiction | reflexivity]. }
        exists h. exact Hh.
      * destruct (handleEvent_insert (ingest c evs) (at_stamp i) (at_version i) (ev i))
          as (h & Hh & _).
        { unfold is_insert. rewrite Et.
          destruct (String.eqb_spec (extractID (Payload (ev i))) ""); [contradiction | reflexivity]. }
        exists h. exact Hh.
      * apply handleEvent_delete; assumption.
      * unfold is_CUD in Hi. rewrite Et in Hi. discriminate.
    + rewrite handleEvent_other_id by (unfold event_id in E; congruence).
      exact IH.
Qed.

Lemma last_event_for_elem id evs i :
  last_event_for id evs = Some i -> i ∈ evs.
Proof.
  unfold last_event_for. intros H. apply last_Some_elem_of in H.
  apply list_elem_of_filter in H. apply H.
Qed.

(** Events that carry an empty id are dropped, so a [Get] of the empty id
    misses; and a producer whose [select] takes [ctx.Done()] closes the
    channel without a value. *)
Lemma Get_empty_id_misses :
  let evs := [created 1000 ghost] in
  let c := ingest default_cache evs in
  spec_get_result zero_TestData "" evs = (ghost, true, None) /\
  (exists c' r,
     StreamCache.Get zero_TestData c 2000 SelectSend "" = Ok (c', mkChan 64 [r] true) /\
     (Data r, Cached r, Error r) = (zero_TestData, false, Some ErrCacheMiss) /\
     (Data r, Cached r, Error r) <> spec_get_result zero_TestData "" evs) /\
  (exists c',
     StreamCache.Get zero_TestData (ingest default_cache [created 1000 alice])
       2000 SelectDone "a" = Ok (c', mkChan 64 [] true)).
Proof.
  split; [reflexivity |]. split.
  - eexists. eexists. split; [reflexivity |]. split; [reflexivity | discriminate].
  - eexists. reflexivity.
Qed.

(** C1 as stated fails for a buffer size that [make] refuses: the cache is
    constructed with the largest [int] as its buffer size, holds a fresh
    record for the id, and [Get] panics where a channel with that record
    is expected. *)
Lemma Get_huge_buffer_panics :
  let evs := [created 1000 alice] in
  NewStreamCache huge_buffer_config (Some "broker") = Ok huge_buffer_cache /\
  0 < BufferSize huge_buffer_config <= Int64.max_value /\
  spec_get_result zero_TestData "a" evs = (alice, true, None) /\
  StreamCache.Get zero_TestData (ingest huge_buffer_cache evs) 2000 SelectSend "a"
    = Panic "makechan: size out of range".
Proof.
  split; [reflexivity |]. split; [split; [reflexivity | discriminate] |].
  split; reflexivity.
Qed.

(** C1, amended.  After any finite run of Created/Updated/Deleted events
    ingested by a newly constructed cache, and before any TTL expiry,
    provided [make] returns the result channel for the configured buffer
    size, for a non-empty [id] and a producer whose [select] takes the send
    (as it does for a context that is not cancelled), the channel returned
    by [Get] carries exactly one value and is then closed; the value is the
    payload of the last Created or Updated event for [id], cached, without
    error, unless the last event for [id] was Deleted or no event carried
    [id], in which case it is the zero value, not cached, with the
    cache-miss error. *)
Theorem Get_after_events (zeroT : Value) (cfg : CacheConfig)
    (sub : option EventSource) (c0 : streamCache) (evs : list Ingest)
    (now : Time.Time) (id : string) :
  NewStreamCache cfg sub = Ok c0 ->
  Forall (fun i => is_CUD (ev i) = true) evs ->
  Forall (fun i => Time.Since now (at_stamp i) <= TTL (config c0)) evs ->
  id <> "" ->
  Get_makes_chan zeroT c0 ->
  exists c' r,
    StreamCache.Get zeroT (ingest c0 evs) now SelectSend id =
      Ok (c', mkChan (BufferSize (config c0)) [r] true) /\
    (Data r, Cached r, Error r) = spec_get_result zeroT id evs.
Proof.
  intros Hnew Hcud Httl Hid Hbuf.
  pose proof (ingest_lookup c0 evs id Hid Hcud) as Hl.
  pose proof (ingest_config c0 evs) as Hcfg.
  unfold StreamCache.Get, spec_get_result. rewrite Hcfg. use_make Hbuf.
  destruct (last_event_for id evs) as [i |] eqn:El.
  - assert (Hfresh : isExpired (ingest c0 evs) now
                       (mkCacheItem (Payload (ev i)) (at_stamp i)
                          (Time.UnixNano (at_version i)) 0) = false).
    { unfold isExpired. rewrite Hcfg. simpl. apply Z.ltb_ge.
      rewrite Forall_forall in Httl. apply Httl.
      eapply last_event_for_elem, El. }
    destruct (Type_ (ev i)).
    + destruct Hl as [h Hl]. rewrite Hl.
      unfold isExpired in *. simpl in *. rewrite Hfresh. simpl.
      eexists. eexists. split; reflexivity.
    + destruct Hl as [h Hl]. rewrite Hl.
      unfold isExpired in *. simpl in *. rewrite Hfresh. simpl.
      eexists. eexists. split; reflexivity.
    + rewrite Hl. eexists. eexists. split; reflexivity.
    + rewrite Hl. eexists. eexists. split; reflexivity.
  - rewrite Hl.
    destruct (NewStreamCache_fresh _ _ _ Hnew) as (-> & _).
    rewrite lookup_empty. eexists. eexists. split; reflexivity.
Qed.

Lemma Get_after_events_witness :
  let evs := [created 1000 alice; created 2000 bob;
              mkIngest 3000 3000 (mkEvent UpdatedEvent (TestData "a" "Alicia" 26));
              mkIngest 4000 4000 (mkEvent DeletedEvent bob)] in
  (exists c' r,
     StreamCache.Get zero_TestData (ingest default_cache evs) 5000 SelectSend "a"
       = Ok (c', mkChan 64 [r] true) /\
     (Data r, Cached r, Error r) = (TestData "a" "Alicia" 26, true, None)) /\
  (exists c' r,
     StreamCache.Get zero_TestData (ingest default_cache evs) 5000 SelectSend "b"
       = Ok (c', mkChan 64 [r] true) /\
     (Data r, Cached r, Error r) = (zero_TestData, false, Some ErrCacheMiss)).
Proof.
  intros evs.
  assert (Hcud : Forall (fun i => is_CUD (ev i) = true) evs)
    by (repeat constructor).
  assert (Httl : Forall (fun i => Time.Since 5000 (at_stamp i)
                                  <= TTL (config default_cache)) evs)
    by (repeat constructor; discriminate).
  split.
  - apply (Get_after_events zero_TestData DefaultCacheConfig (Some "broker")
             default_cache evs 5000 "a" eq_refl Hcud Httl);
      [discriminate | eexists; reflexivity].
  - apply (Get_after_events zero_TestData DefaultCacheConfig (Some "broker")
             default_cache evs 5000 "b" eq_refl Hcud Httl);
      [discriminate | eexists; reflexivity].
Defined.

(** ** Well-formed indexes *)

Lemma handleEvent_wf c t1 t2 e : items_wf c -> items_wf (handleEvent c t1 t2 e).
Proof.
  unfold items_wf, handleEvent. intros Hwf.
  destruct (String.eqb_spec (extractID (Payload e)) "") as [| Hid]; [exact Hwf |].
  destruct (Type_ e); destruct (items c !! extractID (Payload e)); simpl;
    try exact Hwf;
    try (apply map_Forall_insert_2; [split; [reflexivity | exact Hid] | exact Hwf]).
  apply map_Forall_delete, Hwf.
Qed.

Lemma ingest_wf c evs : items_wf c -> items_wf (ingest c evs).
Proof.
  intros Hwf. induction evs as [| i evs IH] using rev_ind; [exact Hwf |].
  rewrite ingest_snoc. apply handleEvent_wf, IH.
Qed.

Lemma NewStreamCache_wf cfg sub c : NewStreamCache cfg sub = Ok c -> items_wf c.
Proof.
  intros H. destruct (NewStreamCache_fresh _ _ _ H) as (Hi & _).
  unfold items_wf. rewrite Hi. apply map_Forall_empty.
Qed.

Lemma matchesFilters_loop_returns fields filters :
  Forall (fun f => is_exported (Field f) = true) filters ->
  exists m, matchesFilters_loop (Some (VStruct fields)) filters = Ok m.
Proof.
  induction filters as [| f filters IH]; intros H; [exists true; reflexivity |].
  apply Forall_cons in H as [Hf Hrest]. specialize (IH Hrest). simpl.
  destruct (reflect.lookup_field (Field f) fields) as [x |]; [| exact IH].
  unfold Interface. rewrite Hf. simpl.
  destruct (matchesFilter x f); simpl; [exact IH | exists false; reflexivity].
Qed.

(** On a payload that has an id, and for filters on exported fields,
    [matchesFilters] returns. *)
Lemma matchesFilters_returns d filters :
  extractID d <> "" ->
  Forall (fun f => is_exported (Field f) = true) filters ->
  exists m, matchesFilters d filters = Ok m.
Proof.
  intros Hid Hexp. unfold matchesFilters.
  destruct (length filters =? 0)%nat; [exists true; reflexivity |].
  unfold extractID in Hid.
  destruct d as [| | | | | | fields | [| | | | | | fields |]]; simpl in *;
    try contradiction; apply matchesFilters_loop_returns, Hexp.
Qed.

Lemma filters_apply_wf c now filters :
  items_wf c ->
  Forall (fun f => is_exported (Field f) = true) filters ->
  filters_apply c now filters.
Proof.
  intros Hwf Hexp id item Hitem _.
  destruct (Hwf id item Hitem) as [Hid Hne].
  apply matchesFilters_returns; [congruence | exact Hexp].
Qed.

(** ** Snapshots: List and Query *)

Lemma selected_true c now filters item :
  selected c now filters item = true <->
  isExpired c now item = false /\ matchesFilters (data item) filters = Ok true.
Proof.
  unfold selected. rewrite andb_true_iff, negb_true_iff.
  destruct (matchesFilters (data item) filters) as [[|] | msg];
    intuition congruence.
Qed.

Lemma List_collect_filter c now filters its :
  Forall (fun kv => isExpired c now (snd kv) = false ->
                    exists m, matchesFilters (data (snd kv)) filters = Ok m) its ->
  StreamCache.List_collect c now filters its =
  Ok ((fun kv => data (snd kv))
        <$> filter (fun kv => selected c now filters (snd kv) = true) its).
Proof.
  induction its as [| [k item] its IH]; intros H; [reflexivity |].
  apply Forall_cons in H as [Hitem Hits]. specialize (IH Hits).
  simpl in Hitem. rewrite filter_cons. simpl.
  destruct (decide (selected c now filters item = true)) as [Hs | Hs].
  - apply selected_true in Hs as [He Hm]. rewrite He, Hm, IH. reflexivity.
  - destruct (isExpired c now item) eqn:He; simpl; [exact IH |].
    destruct (Hitem eq_refl) as [m Hm]. rewrite Hm, IH. simpl.
    destruct m; [| reflexivity].
    exfalso. apply Hs. apply selected_true. split; assumption.
Qed.

Lemma filter_map_to_list_snapshot c now filters :
  is_snapshot_of c now filters
    ((fun kv => data (snd kv))
       <$> filter (fun kv => selected c now filters (snd kv) = true)
                  (map_to_list (items c))).
Proof.
  eexists. split; [reflexivity |]. split.
  - eapply sublist_NoDup; [apply (NoDup_fst_map_to_list (items c)) |].
    apply fmap_sublist, sublist_filter.
  - intros id item. rewrite list_elem_of_filter, elem_of_map_to_list. simpl.
    rewrite selected_true. tauto.
Qed.

Lemma List_inv c now sel filters ch :
  StreamCache.List c now sel filters = Ok ch ->
  List_makes_chan c /\
  ch = mkChan (BufferSize (config c)) (emitted ch) true.
Proof.
  unfold StreamCache.List, List_makes_chan.
  destruct (make_chan (A := CacheResult (list Value)) _ _) as [ch0 | msg] eqn:Emake;
    simpl; [| discriminate].
  apply make_chan_inv in Emake as ->.
  destruct (StreamCache.List_collect _ _ _ _); simpl; [| discriminate].
  destruct sel; intros H; injection H as <-; (split; [eexists |]); reflexivity.
Qed.

(** C2, which the code violates.  The claim makes the channel of [List]
    long-lived; the channel is closed after its first snapshot although the
    context is not cancelled, and the event that changes the filtered set
    afterwards adds nothing to it. *)
Lemma List_closes_after_first_snapshot :
  let c1 := ingest default_cache [created 1000 alice] in
  let c2 := ingest c1 [created 2000 bob] in
  exists r1 r2,
    StreamCache.List c1 3000 SelectSend [] = Ok (mkChan 64 [r1] true) /\
    StreamCache.List c2 3000 SelectSend [] = Ok (mkChan 64 [r2] true) /\
    Data r1 = [alice] /\ Data r2 = [alice; bob] /\ Data r1 <> Data r2.
Proof.
  eexists. eexists. split; [vm_compute; reflexivity |].
  split; [vm_compute; reflexivity |]. simpl.
  split; [reflexivity |]. split; [reflexivity | discriminate].
Qed.

(** What [List] does on every call: its producer takes one snapshot of the
    currently cached, unexpired records that pass [matchesFilters] (each
    once, in no particular order), emits it with cached=true and no error
    unless the context is cancelled first, and closes the channel in either
    case; the channel never carries a second snapshot. *)
Lemma List_single_snapshot (c : streamCache) (now : Time.Time)
    (sel : SelectCase) (filters : list Filter) :
  List_makes_chan c ->
  filters_apply c now filters ->
  exists ch,
    StreamCache.List c now sel filters = Ok ch /\
    closed ch = true /\
    (length (emitted ch) <= 1)%nat /\
    (sel = SelectDone -> emitted ch = []) /\
    (sel = SelectSend ->
       exists r, emitted ch = [r] /\ Cached r = true /\ Error r = None /\
                 is_snapshot_of c now filters (Data r)).
Proof.
  intros Hbuf Happly. unfold StreamCache.List. use_make Hbuf.
  rewrite List_collect_filter.
  - simpl. destruct sel; eexists; (split; [reflexivity |]); simpl.
    + split; [reflexivity |]. split; [lia |]. split; [discriminate |].
      intros _. eexists. split; [reflexivity |].
      split; [reflexivity |]. split; [reflexivity |].
      apply filter_map_to_list_snapshot.
    + split; [reflexivity |]. split; [lia |]. split; [reflexivity |].
      discriminate.
  - apply map_Forall_to_list in Happly.
    eapply Forall_impl; [exact Happly |]. intros [k item] H. exact H.
Qed.

Lemma List_single_snapshot_example :
  let c := ingest default_cache [created 1000 alice; created 2000 bob] in
  exists ch,
    StreamCache.List c 3000 SelectSend [age_is_30] = Ok ch /\
    closed ch = true /\
    exists r, emitted ch = [r] /\ Cached r = true /\
              is_snapshot_of c 3000 [age_is_30] (Data r).
Proof.
  intros c.
  assert (Hbuf : List_makes_chan c) by (eexists; reflexivity).
  assert (Happly : filters_apply c 3000 [age_is_30]).
  { apply map_Forall_to_list. vm_compute.
    repeat constructor; intros _; eexists; reflexivity. }
  destruct (List_single_snapshot c 3000 SelectSend [age_is_30] Hbuf Happly)
    as (ch & Hch & Hclosed & _ & _ & Hsend).
  destruct (Hsend eq_refl) as (r & Hr & Hcached & _ & Hsnap).
  exists ch. split; [exact Hch |]. split; [exact Hclosed |].
  exists r. split; [exact Hr |]. split; [exact Hcached | exact Hsnap].
Qed.

Lemma Query_forward_prefix {A : Type} (results : list A) i sels (ch : Chan A) :
  exists sent,
    sent `prefix_of` results /\
    StreamCache.Query_forward results i sels ch =
      mkChan (capacity ch) (emitted ch ++ sent) (closed ch) /\
    ((forall j, sels j = SelectSend) -> sent = results).
Proof.
  revert i ch. induction results as [| r results IH]; intros i ch.
  - exists []. split; [apply prefix_nil |]. split; [| reflexivity].
    simpl. rewrite app_nil_r. destruct ch. reflexivity.
  - simpl. destruct (sels i) eqn:Ei.
    + destruct (IH (S i) (send ch r)) as (sent & Hp & Heq & Hall).
      exists (r :: sent). split; [apply prefix_cons, Hp |]. split.
      * rewrite Heq. simpl. rewrite <- app_assoc. reflexivity.
      * intros H. rewrite (Hall H). reflexivity.
    + exists []. split; [apply prefix_nil |]. split.
      * rewrite app_nil_r. destruct ch. reflexivity.
      * intros H. rewrite H in Ei. discriminate.
Qed.

(** C4 as stated fails: a query with limit 1 over two cached records emits
    a snapshot of two records, which no sort followed by offset and limit
    yields. *)
Lemma Query_ignores_limit :
  let c := ingest default_cache [created 1000 alice; created 2000 bob] in
  let q := mkQuery [] [mkSortField "Age" true] 1 0 in
  exists r,
    StreamCache.Query c 3000 SelectSend always_send q = Ok (mkChan 64 [r] true) /\
    length (Data r) = 2%nat /\
    forall sorted, Data r <> spec_offset_limit q sorted.
Proof.
  eexists. split; [vm_compute; reflexivity |]. split; [reflexivity |].
  intros sorted H. apply (f_equal length) in H. revert H.
  unfold spec_offset_limit. simpl. rewrite drop_0.
  destruct sorted as [| x [| y sorted]]; discriminate.
Qed.

(** C4, amended.  For every Query value, the channel returned by [Query]
    carries what the channel of [List] on the query's filters carries,
    forwarded unchanged up to the point where the context is cancelled
    (all of it when it never is), and fails exactly when [List] fails; the
    sort, offset and limit of the query have no effect. *)
Theorem Query_forwards_List_of_Filters (c : streamCache) (now : Time.Time)
    (sel : SelectCase) (sels : nat -> SelectCase) (q : Query) :
  match StreamCache.List c now sel (Filters q) with
  | Ok listed =>
      exists ch,
        StreamCache.Query c now sel sels q = Ok ch /\
        capacity ch = capacity listed /\ closed ch = true /\
        emitted ch `prefix_of` emitted listed /\
        ((forall i, sels i = SelectSend) -> ch = listed)
  | Panic msg => StreamCache.Query c now sel sels q = Panic msg
  end /\
  forall q', Filters q' = Filters q ->
    StreamCache.Query c now sel sels q' = StreamCache.Query c now sel sels q.
Proof.
  split.
  - destruct (StreamCache.List c now sel (Filters q)) as [listed | msg] eqn:EL.
    + destruct (List_inv _ _ _ _ _ EL) as [Hbuf Hlisted].
      unfold StreamCache.Query. use_make Hbuf. rewrite EL. simpl.
      destruct (Query_forward_prefix (emitted listed) 0%nat sels
                  (mkChan (BufferSize (config c)) [] false))
        as (sent & Hp & Heq & Hall).
      rewrite Heq. simpl. eexists. split; [reflexivity |]. simpl.
      split; [rewrite Hlisted; reflexivity |]. split; [reflexivity |].
      split; [exact Hp |].
      intros H. rewrite (Hall H). symmetry. exact Hlisted.
    + unfold StreamCache.Query.
      destruct (make_chan (A := CacheResult (list Value)) (result_size slice_size)
                  (BufferSize (config c)))
        as [ch0 | m0] eqn:Em; simpl.
      * rewrite EL. reflexivity.
      * unfold StreamCache.List in EL. rewrite Em in EL. exact EL.
  - intros q' Hq. unfold StreamCache.Query. rewrite Hq. reflexivity.
Qed.

Lemma Query_forwards_List_of_Filters_witness :
  let c := ingest default_cache [created 1000 alice; created 2000 bob] in
  let q := mkQuery [age_is_30] [mkSortField "Age" true] 1 5 in
  exists ch r,
    StreamCache.List c 3000 SelectSend [age_is_30] = Ok ch /\
    StreamCache.Query c 3000 SelectSend always_send q = Ok ch /\
    emitted ch = [r] /\ Data r = [bob].
Proof.
  intros c q.
  pose proof (Query_forwards_List_of_Filters c 3000 SelectSend always_send q) as [H _].
  destruct (StreamCache.List c 3000 SelectSend (Filters q)) as [listed | msg] eqn:EL;
    [| vm_compute in EL; discriminate EL].
  destruct H as (ch & HQ & _ & _ & _ & Hsame).
  specialize (Hsame (fun _ => eq_refl)). subst ch.
  vm_compute in EL. injection EL as <-.
  eexists. eexists. split; [vm_compute; reflexivity |].
  split; [exact HQ |]. split; reflexivity.
Defined.

(** * Further properties of the package *)

(** ** TTL cleanup *)

Lemma performCleanup_visit_config now c kv :
  config (performCleanup_visit now c kv) = config c.
Proof.
  unfold performCleanup_visit. destruct (_ <? _); reflexivity.
Qed.

Lemma performCleanup_fold_config now l c :
  config (fold_left (performCleanup_visit now) l c) = config c.
Proof.
  revert c. induction l as [| kv l IH]; intros c; [reflexivity |].
  simpl. rewrite IH. apply performCleanup_visit_config.
Qed.

Lemma performCleanup_fold_lookup now l c id :
  items (fold_left (performCleanup_visit now) l c) !! id =
  if decide (id ∈ fst <$> filter (fun kv => isExpired c now (snd kv) = true) l)
  then None else items c !! id.
Proof.
  revert c. induction l as [| [k item] l IH]; intros c; [reflexivity |].
  simpl. rewrite IH. rewrite filter_cons. simpl.
  assert (Hext : filter (fun kv => isExpired (performCleanup_visit now c (k, item))
                                     now (snd kv) = true) l
                 = filter (fun kv => isExpired c now (snd kv) = true) l).
  { apply list_filter_iff. intros kv. unfold isExpired.
    rewrite performCleanup_visit_config. reflexivity. }
  rewrite Hext. clear Hext.
  assert (Hv : performCleanup_visit now c (k, item) =
               if isExpired c now item
               then set_stats (set_items c (delete k (items c)))
                      (set_ItemCount (stats c) (Int64.decr (ItemCount (stats c))))
               else c) by reflexivity.
  rewrite Hv. clear Hv.
  destruct (isExpired c now item) eqn:E.
  - destruct (decide (true = true)) as [_ | Hc]; [| congruence].
    rewrite fmap_cons. cbn [fst items set_stats set_items].
    destruct (decide (id ∈ fst <$> filter
                (fun kv => isExpired c now (snd kv) = true) l)) as [Hin | Hnin].
    + rewrite decide_True; [reflexivity | apply elem_of_cons; right; exact Hin].
    + destruct (decide (id = k)) as [-> | Hne].
      * rewrite lookup_delete_eq.
        rewrite decide_True; [reflexivity | apply elem_of_cons; left; reflexivity].
      * rewrite lookup_delete_ne by congruence.
        rewrite decide_False; [reflexivity |].
        rewrite elem_of_cons. intros [? | ?]; congruence.
  - destruct (decide (false = true)) as [Hc | _]; [discriminate | reflexivity].
Qed.

Lemma performCleanup_fold_stats now l c :
  HitCount (stats (fold_left (performCleanup_visit now) l c)) = HitCount (stats c) /\
  MissCount (stats (fold_left (performCleanup_visit now) l c)) = MissCount (stats c) /\
  LastCleanup (stats (fold_left (performCleanup_visit now) l c)) = LastCleanup (stats c).
Proof.
  revert c. induction l as [| kv l IH]; intros c; [repeat split |].
  simpl. destruct (IH (performCleanup_visit now c kv)) as (-> & -> & ->).
  unfold performCleanup_visit. destruct (_ <? _); repeat split.
Qed.

Lemma performCleanup_lookup c now id :
  items (performCleanup c now) !! id =
  match items c !! id with
  | Some item => if isExpired c now item then None else Some item
  | None => None
  end.
Proof.
  unfold performCleanup. simpl. rewrite performCleanup_fold_lookup.
  destruct (items c !! id) as [item |] eqn:El.
  - destruct (isExpired c now item) eqn:E.
    + rewrite decide_True; [reflexivity |].
      apply list_elem_of_fmap. exists (id, item). split; [reflexivity |].
      apply list_elem_of_filter. split; [exact E |].
      apply elem_of_map_to_list, El.
    + rewrite decide_False; [reflexivity |].
      intros Hin. apply list_elem_of_fmap in Hin as ([k it] & Hk & Hin).
      simpl in Hk. subst k.
      apply list_elem_of_filter in Hin as [Hexp Hin]. simpl in Hexp.
      apply elem_of_map_to_list in Hin. congruence.
  - destruct (decide _); reflexivity.
Qed.

(** X1. [performCleanup] removes exactly the records that are expired at
    the clock reading it takes and keeps every other record unchanged; no
    record it leaves is expired at that reading; it stamps [LastCleanup]
    with the reading and leaves configuration and hit/miss counters alone. *)
Theorem performCleanup_removes_exactly_expired (c : streamCache) (now : Time.Time) :
  let c' := performCleanup c now in
  (forall id,
     items c' !! id =
     match items c !! id with
     | Some item => if isExpired c now item then None else Some item
     | None => None
     end) /\
  (forall id item, items c' !! id = Some item -> isExpired c' now item = false) /\
  LastCleanup (StreamCache.Stats c') = now /\
  HitCount (StreamCache.Stats c') = HitCount (StreamCache.Stats c) /\
  MissCount (StreamCache.Stats c') = MissCount (StreamCache.Stats c) /\
  config c' = config c.
Proof.
  intros c'.
  assert (Hcfg : config c' = config c).
  { unfold c', performCleanup. simpl. apply performCleanup_fold_config. }
  split; [intros id; apply performCleanup_lookup |].
  split.
  - intros id item H. unfold c' in H. rewrite performCleanup_lookup in H.
    unfold isExpired. rewrite Hcfg.
    destruct (items c !! id) as [it |]; [| discriminate].
    destruct (isExpired c now it) eqn:E; [discriminate |].
    injection H as <-. exact E.
  - split; [reflexivity |].
    unfold c', performCleanup, StreamCache.Stats. simpl.
    destruct (performCleanup_fold_stats now (map_to_list (items c)) c) as (H1 & H2 & _).
    split; [exact H1 |]. split; [exact H2 | exact Hcfg].
Qed.

Lemma performCleanup_removes_exactly_expired_witness :
  let c' := performCleanup two_records first_expired in
  items c' !! "a" = None /\
  items c' !! "b" = items two_records !! "b" /\
  (forall id item, items c' !! id = Some item -> isExpired c' first_expired item = false) /\
  LastCleanup (StreamCache.Stats c') = first_expired.
Proof.
  intros c'.
  destruct (performCleanup_removes_exactly_expired two_records first_expired)
    as (Hl & Hfresh & Hlast & _).
  split; [rewrite Hl; reflexivity |].
  split; [rewrite Hl; reflexivity |].
  split; [exact Hfresh | exact Hlast].
Defined.

(** ** Invariants of the index *)

Lemma size_delete_present (m : gmap string cacheItem) k item :
  m !! k = Some item -> size m = S (size (delete k m)).
Proof.
  intros H. rewrite <- (insert_id m k item H) at 1.
  rewrite <- insert_delete_eq. apply map_size_insert_None, lookup_delete_eq.
Qed.

Lemma count_ok_delete c k item :
  items c !! k = Some item -> count_ok c ->
  count_ok (set_stats (set_items c (delete k (items c)))
              (set_ItemCount (stats c) (Int64.decr (ItemCount (stats c))))).
Proof.
  unfold count_ok. intros Hk Hc. simpl. rewrite Hc.
  rewrite (size_delete_present _ _ _ Hk).
  unfold Int64.decr.
  replace (Int64.wrap64 (Z.of_nat (S (size (delete k (items c))))) - 1)
    with (Int64.wrap64 (Z.of_nat (S (size (delete k (items c))))) + (-1)) by lia.
  rewrite Int64Facts.wrap64_add_idemp. f_equal. lia.
Qed.

Lemma count_ok_insert_new c k item :
  items c !! k = None -> count_ok c ->
  count_ok (set_items (set_stats c (set_ItemCount (stats c)
                                      (Int64.incr (ItemCount (stats c)))))
              (<[k := item]> (items c))).
Proof.
  unfold count_ok. intros Hk Hc. simpl. rewrite Hc.
  rewrite map_size_insert_None by exact Hk.
  unfold Int64.incr. rewrite Int64Facts.wrap64_add_idemp. f_equal. lia.
Qed.

Lemma count_ok_refresh c k item existing :
  items c !! k = Some existing -> count_ok c ->
  count_ok (set_items c (<[k := item]> (items c))).
Proof.
  unfold count_ok. intros Hk Hc. simpl.
  rewrite map_size_insert_Some by (rewrite Hk; eauto). exact Hc.
Qed.

Lemma handleEvent_count c t1 t2 e : count_ok c -> count_ok (handleEvent c t1 t2 e).
Proof.
  intros Hc. unfold handleEvent.
  destruct (String.eqb (extractID (Payload e)) ""); [exact Hc |].
  destruct (items c !! extractID (Payload e)) as [existing |] eqn:El;
    destruct (Type_ e); try exact Hc.
  - eapply count_ok_refresh; eassumption.
  - eapply count_ok_refresh; eassumption.
  - apply (count_ok_delete c _ existing El Hc).
  - apply (count_ok_insert_new c _ _ El Hc).
  - apply (count_ok_insert_new c _ _ El Hc).
Qed.

Lemma performCleanup_fold_count now l c :
  NoDup (fst <$> l) ->
  (forall k item, (k, item) ∈ l -> items c !! k = Some item) ->
  count_ok c ->
  count_ok (fold_left (performCleanup_visit now) l c).
Proof.
  revert c. induction l as [| [k item] l IH]; intros c Hnd Hin Hc; [exact Hc |].
  rewrite fmap_cons in Hnd. apply NoDup_cons in Hnd as [Hk Hnd]. simpl in Hk.
  simpl. apply IH; [exact Hnd | |].
  - intros k' item' Hin'.
    assert (Hne : k' <> k).
    { intros ->. apply Hk. apply list_elem_of_fmap. exists (k, item'). split; auto. }
    unfold performCleanup_visit. destruct (_ <? _); simpl.
    + rewrite lookup_delete_ne by congruence. apply Hin, elem_of_cons. right. exact Hin'.
    + apply Hin, elem_of_cons. right. exact Hin'.
  - unfold performCleanup_visit. destruct (_ <? _); [| exact Hc].
    apply (count_ok_delete c k item); [| exact Hc].
    apply Hin, elem_of_cons. left. reflexivity.
Qed.

Lemma performCleanup_count c now : count_ok c -> count_ok (performCleanup c now).
Proof.
  intros Hc. unfold performCleanup.
  pose proof (performCleanup_fold_count now (map_to_list (items c)) c
                (NoDup_fst_map_to_list (items c))
                (fun k item H => proj1 (elem_of_map_to_list _ _ _) H) Hc) as H.
  exact H.
Qed.

Lemma Get_state zeroT c now sel id c' ch :
  StreamCache.Get zeroT c now sel id = Ok (c', ch) ->
  config c' = config c /\
  ItemCount (stats c') = ItemCount (stats c) /\
  (items c' = items c \/
   exists item, items c !! id = Some item /\
     items c' = <[id := mkCacheItem (data item) (timestamp item) (version item)
                          (Int64.incr (hits item))]> (items c)).
Proof.
  unfold StreamCache.Get. case_make; [| discriminate].
  destruct (items c !! id) as [item |] eqn:El;
    [destruct (negb (isExpired c now item)) |];
    destruct sel; intros H; injection H as <- _; simpl;
    repeat split; auto; right; exists item; split; reflexivity.
Qed.

Lemma Get_count zeroT c now sel id c' ch :
  StreamCache.Get zeroT c now sel id = Ok (c', ch) -> count_ok c -> count_ok c'.
Proof.
  intros HG Hc. destruct (Get_state _ _ _ _ _ _ _ HG) as (_ & Hn & [Hi | (item & Hl & Hi)]);
    unfold count_ok; rewrite Hn, Hi; [exact Hc |].
  rewrite map_size_insert_Some by (rewrite Hl; eauto). exact Hc.
Qed.

Lemma Get_wf zeroT c now sel id c' ch :
  StreamCache.Get zeroT c now sel id = Ok (c', ch) -> items_wf c -> items_wf c'.
Proof.
  intros HG Hwf. destruct (Get_state _ _ _ _ _ _ _ HG) as (_ & _ & [Hi | (item & Hl & Hi)]);
    unfold items_wf; rewrite Hi; [exact Hwf |].
  apply map_Forall_insert_2; [| exact Hwf]. simpl. apply (Hwf id item Hl).
Qed.

Lemma Invalidate_wf c ids : items_wf c -> items_wf (StreamCache.Invalidate c ids).
Proof.
  intros Hwf. induction ids as [| k ids IH] using rev_ind; [exact Hwf |].
  rewrite Invalidate_snoc. simpl. unfold items_wf in *. simpl.
  apply map_Forall_delete, IH.
Qed.

Lemma performCleanup_wf c now : items_wf c -> items_wf (performCleanup c now).
Proof.
  intros Hwf id item H. rewrite performCleanup_lookup in H.
  destruct (items c !! id) as [it |] eqn:El; [| discriminate].
  destruct (isExpired c now it); [discriminate |]. injection H as <-.
  apply (Hwf id it El).
Qed.

Lemma apply_op_wf zeroT c op : items_wf c -> items_wf (apply_op zeroT c op).
Proof.
  intros Hwf. destruct op as [i | now | ids | | now sel id]; simpl.
  - apply handleEvent_wf, Hwf.
  - apply performCleanup_wf, Hwf.
  - apply Invalidate_wf, Hwf.
  - unfold items_wf. simpl. apply map_Forall_empty.
  - destruct (StreamCache.Get zeroT c now sel id) as [[c' ch] |] eqn:HG; [| exact Hwf].
    eapply Get_wf; eassumption.
Qed.

Lemma apply_op_count zeroT c op :
  is_OpInvalidate op = false -> count_ok c -> count_ok (apply_op zeroT c op).
Proof.
  intros Hop Hc. destruct op as [i | now | ids | | now sel id]; simpl.
  - apply handleEvent_count, Hc.
  - apply performCleanup_count, Hc.
  - discriminate.
  - unfold count_ok. simpl. rewrite map_size_empty. reflexivity.
  - destruct (StreamCache.Get zeroT c now sel id) as [[c' ch] |] eqn:HG; [| exact Hc].
    eapply Get_count; eassumption.
Qed.

Lemma run_snoc zeroT c ops op :
  run zeroT c (ops ++ [op]) = apply_op zeroT (run zeroT c ops) op.
Proof. unfold run. rewrite fold_left_app. reflexivity. Qed.

(** X2. Whatever events, cleanups, invalidations, clears and gets a newly
    constructed cache goes through, every record of its index is stored
    under the id that [extractID] reads from the record's own data, and that
    id is not empty. *)
Theorem records_keyed_by_own_id (zeroT : Value) (cfg : CacheConfig)
    (sub : option EventSource) (c0 : streamCache) (ops : list Op) :
  NewStreamCache cfg sub = Ok c0 ->
  forall id item,
    items (run zeroT c0 ops) !! id = Some item ->
    extractID (data item) = id /\ id <> "".
Proof.
  intros Hnew. apply NewStreamCache_wf in Hnew.
  induction ops as [| op ops IH] using rev_ind; [exact Hnew |].
  rewrite run_snoc. apply apply_op_wf. exact IH.
Qed.

Lemma records_keyed_by_own_id_witness :
  exists item,
    items (run zero_TestData default_cache
             [OpEvent (created 1000 alice); OpEvent (created 1500 ghost);
              OpGet 2000 SelectSend "a"; OpInvalidate ["zz"];
              OpEvent (created 3000 bob); OpCleanup 4000]) !! "a" = Some item /\
    hits item = 1 /\
    extractID (data item) = "a" /\ "a" <> "".
Proof.
  exists (mkCacheItem alice 1000 1000 1).
  split; [reflexivity |]. split; [reflexivity |].
  apply (records_keyed_by_own_id zero_TestData DefaultCacheConfig (Some "broker")
           default_cache
           [OpEvent (created 1000 alice); OpEvent (created 1500 ghost);
            OpGet 2000 SelectSend "a"; OpInvalidate ["zz"];
            OpEvent (created 3000 bob); OpCleanup 4000]
           eq_refl "a" (mkCacheItem alice 1000 1000 1) eq_refl).
Defined.

(** X3. As long as [Invalidate] is not used, [ItemCount] equals the number
    of records in the index (on 64 bits) after any run of events, cleanups,
    clears and gets on a newly constructed cache. *)
Theorem ItemCount_is_index_size (zeroT : Value) (cfg : CacheConfig)
    (sub : option EventSource) (c0 : streamCache) (ops : list Op) :
  NewStreamCache cfg sub = Ok c0 ->
  Forall (fun op => is_OpInvalidate op = false) ops ->
  ItemCount (StreamCache.Stats (run zeroT c0 ops)) =
  Int64.wrap64 (Z.of_nat (size (items (run zeroT c0 ops)))).
Proof.
  intros Hnew Hops.
  assert (H0 : count_ok c0).
  { destruct (NewStreamCache_fresh _ _ _ Hnew) as (Hi & Hs & _).
    unfold count_ok. rewrite Hi, Hs, map_size_empty. reflexivity. }
  induction ops as [| op ops IH] using rev_ind; [exact H0 |].
  apply Forall_app in Hops as [Hops Hop]. apply Forall_cons in Hop as [Hop _].
  rewrite run_snoc. apply apply_op_count; [exact Hop | exact (IH Hops)].
Qed.

Lemma ItemCount_is_index_size_witness :
  let c := run zero_TestData tiny_cache
             [OpEvent (created 1000 alice); OpEvent (created 2000 bob);
              OpEvent (mkIngest 2500 2500 (mkEvent DeletedEvent ghost));
              OpGet 3000 SelectSend "b"; OpCleanup first_expired;
              OpEvent (mkIngest first_expired first_expired (mkEvent UpdatedEvent bob))] in
  ItemCount (StreamCache.Stats c) = 1 /\ size (items c) = 1%nat.
Proof.
  intros c.
  pose proof (ItemCount_is_index_size zero_TestData tiny_config (Some "broker")
                tiny_cache
                [OpEvent (created 1000 alice); OpEvent (created 2000 bob);
                 OpEvent (mkIngest 2500 2500 (mkEvent DeletedEvent ghost));
                 OpGet 3000 SelectSend "b"; OpCleanup first_expired;
                 OpEvent (mkIngest first_expired first_expired
                            (mkEvent UpdatedEvent bob))]
                eq_refl ltac:(repeat constructor)) as H.
  fold c in H. split; [rewrite H |]; vm_compute; reflexivity.
Defined.

(** ** Get, List and cleanup together *)

(** X4. A cleanup is not observable through [Get] at the same clock
    reading: the channel [Get] returns for any id carries the same value
    (or fails the same way) whether or not [performCleanup] ran just
    before, because [Get] already treats expired records as misses. *)
Theorem Get_unaffected_by_cleanup (zeroT : Value) (c : streamCache)
    (now : Time.Time) (sel : SelectCase) (id : string) :
  Get_chan zeroT (performCleanup c now) now sel id = Get_chan zeroT c now sel id.
Proof.
  assert (Hcfg : config (performCleanup c now) = config c).
  { unfold performCleanup. simpl. apply performCleanup_fold_config. }
  pose proof (performCleanup_lookup c now id) as Hl.
  assert (He : forall item, isExpired (performCleanup c now) now item
                            = isExpired c now item).
  { intros item. unfold isExpired. rewrite Hcfg. reflexivity. }
  remember (performCleanup c now) as c1 eqn:Hc1. clear Hc1.
  unfold Get_chan, StreamCache.Get. rewrite Hcfg.
  case_make; [| reflexivity].
  rewrite Hl.
  destruct (items c !! id) as [item |]; [| destruct sel; reflexivity].
  destruct (isExpired c now item) eqn:E.
  - simpl. destruct sel; reflexivity.
  - rewrite He, E. simpl. destruct sel; reflexivity.
Qed.

Lemma Get_makes_chan_config zeroT c c' :
  config c' = config c -> Get_makes_chan zeroT c -> Get_makes_chan zeroT c'.
Proof. unfold Get_makes_chan. intros ->. trivial. Qed.

Lemma List_makes_chan_config c c' :
  config c' = config c -> List_makes_chan c -> List_makes_chan c'.
Proof. unfold List_makes_chan. intros ->. trivial. Qed.

Lemma Get_send_outcome zeroT c now id :
  Get_makes_chan zeroT c ->
  exists c' r,
    StreamCache.Get zeroT c now SelectSend id
      = Ok (c', mkChan (BufferSize (config c)) [r] true) /\
    config c' = config c /\
    ((exists item, items c !! id = Some item /\ isExpired c now item = false /\
        Data r = data item /\ Cached r = true /\ Error r = None /\
        HitCount (stats c') = Int64.incr (HitCount (stats c)) /\
        MissCount (stats c') = MissCount (stats c)) \/
     ((items c !! id = None \/
       exists item, items c !! id = Some item /\ isExpired c now item = true) /\
      Data r = zeroT /\ Cached r = false /\ Error r = Some ErrCacheMiss /\
      HitCount (stats c') = HitCount (stats c) /\
      MissCount (stats c') = Int64.incr (MissCount (stats c)))).
Proof.
  intros Hbuf. unfold StreamCache.Get. use_make Hbuf.
  destruct (items c !! id) as [item |] eqn:El.
  - destruct (isExpired c now item) eqn:E; simpl.
    + eexists. eexists. split; [reflexivity |]. split; [reflexivity |].
      right. repeat split. right. exists item. split; [reflexivity | exact E].
    + eexists. eexists. split; [reflexivity |]. split; [reflexivity |].
      left. exists item. repeat split. exact E.
  - eexists. eexists. split; [reflexivity |]. split; [reflexivity |].
    right. repeat split. left. reflexivity.
Qed.

(** X5. For [Get] calls whose producers take the send of their [select]
    (as they do for contexts that are not cancelled), on a cache for whose
    buffer size [make] returns the result channel: every call delivers
    exactly one value, which is either cached without error or not cached
    with the cache-miss error; [HitCount] grows by the number of cached
    values delivered and [MissCount] by the number of misses delivered (on
    64 bits). *)
Theorem Gets_counters (zeroT : Value) (c : streamCache) (calls : list GetCall) :
  Get_makes_chan zeroT c ->
  Int64.in_range (HitCount (stats c)) ->
  Int64.in_range (MissCount (stats c)) ->
  Forall (fun call => call_sel call = SelectSend) calls ->
  exists c' received,
    Gets zeroT c calls = Ok (c', received) /\
    length received = length calls /\
    Forall (fun r => (Cached r = true /\ Error r = None) \/
                     (Cached r = false /\ Error r = Some ErrCacheMiss)) received /\
    HitCount (StreamCache.Stats c') =
      Int64.wrap64 (HitCount (StreamCache.Stats c)
                    + Z.of_nat (length (filter (fun r => Cached r = true) received))) /\
    MissCount (StreamCache.Stats c') =
      Int64.wrap64 (MissCount (StreamCache.Stats c)
                    + Z.of_nat (length (filter (fun r => Cached r = false) received))).
Proof.
  unfold StreamCache.Stats.
  revert c. induction calls as [| call calls IH]; intros c Hbuf Hh Hm Hsel.
  - exists c, []. simpl. rewrite !Z.add_0_r.
    rewrite !Int64Facts.wrap64_in_range by assumption. repeat split. constructor.
  - apply Forall_cons in Hsel as [Hs Hsel]. simpl. rewrite Hs.
    destruct (Get_send_outcome zeroT c (call_now call) (call_id call) Hbuf)
      as (c1 & r & HG & Hcfg & Hcase).
    rewrite HG. simpl.
    assert (Hh1 : Int64.in_range (HitCount (stats c1))).
    { destruct Hcase as [(item & _ & _ & _ & _ & _ & -> & _) | (_ & _ & _ & _ & -> & _)];
        [apply Int64Facts.wrap64_range | exact Hh]. }
    assert (Hm1 : Int64.in_range (MissCount (stats c1))).
    { destruct Hcase as [(item & _ & _ & _ & _ & _ & _ & ->) | (_ & _ & _ & _ & _ & ->)];
        [exact Hm | apply Int64Facts.wrap64_range]. }
    destruct (IH c1 (Get_makes_chan_config zeroT c c1 Hcfg Hbuf) Hh1 Hm1 Hsel)
      as (c' & received & HGs & Hlen & Hall & Hhit & Hmiss).
    rewrite HGs. simpl. exists c', (r :: received).
    split; [reflexivity |]. split; [simpl; congruence |].
    rewrite !filter_cons.
    destruct Hcase as [(item & _ & _ & _ & Hc & He & Hh' & Hm')
                      | (_ & _ & Hc & He & Hh' & Hm')].
    + split; [constructor; [left; split; assumption | exact Hall] |].
      rewrite Hc. rewrite decide_True by reflexivity.
      rewrite decide_False by discriminate. simpl length.
      rewrite Hhit, Hmiss, Hh', Hm'. unfold Int64.incr.
      rewrite Int64Facts.wrap64_add_idemp. split; [f_equal; lia | reflexivity].
    + split; [constructor; [right; split; assumption | exact Hall] |].
      rewrite Hc. rewrite decide_False by discriminate.
      rewrite decide_True by reflexivity. simpl length.
      rewrite Hhit, Hmiss, Hh', Hm'. unfold Int64.incr.
      rewrite Int64Facts.wrap64_add_idemp. split; [reflexivity | f_equal; lia].
Qed.

Lemma Gets_counters_witness :
  exists c' received,
    Gets zero_TestData two_records hit_calls = Ok (c', received) /\
    length received = 4%nat /\
    HitCount (StreamCache.Stats c') = 2 /\ MissCount (StreamCache.Stats c') = 2.
Proof.
  destruct (Gets_counters zero_TestData two_records hit_calls)
    as (c' & received & HG & Hlen & _ & Hh & Hm).
  - eexists. reflexivity.
  - vm_compute. split; discriminate.
  - vm_compute. split; discriminate.
  - repeat constructor.
  - exists c', received. split; [exact HG |]. split; [exact Hlen |].
    rewrite Hh, Hm. vm_compute in HG. injection HG as <- <-.
    split; reflexivity.
Defined.

(** X6. [Get] counts before its producer reaches the [select], so the
    cache it leaves does not depend on the case the [select] takes.  In a
    run where the [select] takes [ctx.Done()] (possible only once the
    context is cancelled, and even then the send may be taken instead)
    nothing is delivered on the channel, which is closed all the same, and
    the cache after the call, hit or miss counter and the record's hits
    included, is the one left by the run that takes the send and delivers
    its one value; and the call panics in the one run exactly when it
    panics in the other. *)
Theorem Get_counts_whichever_case_select_takes (zeroT : Value) (c : streamCache)
    (now : Time.Time) (id : string) :
  match StreamCache.Get zeroT c now SelectDone id with
  | Ok (c', ch) =>
      emitted ch = [] /\ closed ch = true /\
      exists ch', StreamCache.Get zeroT c now SelectSend id = Ok (c', ch') /\
                  length (emitted ch') = 1%nat /\
                  (HitCount (stats c') = Int64.incr (HitCount (stats c)) \/
                   MissCount (stats c') = Int64.incr (MissCount (stats c)))
  | Panic msg => StreamCache.Get zeroT c now SelectSend id = Panic msg
  end.
Proof.
  unfold StreamCache.Get. case_make; [| reflexivity].
  destruct (items c !! id) as [item |];
    [destruct (negb (isExpired c now item)) |]; simpl;
    (split; [reflexivity |]); (split; [reflexivity |]);
    eexists; (split; [reflexivity |]); (split; [reflexivity |]);
    first [left; reflexivity | right; reflexivity].
Qed.




(** ** Expiry *)

Lemma isExpired_lt c now item :
  Int64.in_range (TTL (config c)) ->
  TTL (config c) < Int64.max_value ->
  (isExpired c now item = true <-> TTL (config c) < now - timestamp item).
Proof.
  unfold Int64.in_range, isExpired, Time.Since, Time.Sub.
  intros Hr Hlt. rewrite Z.ltb_lt. lia.
Qed.

(** X8. Expiry is a strict comparison on a saturating difference: for a
    TTL below the largest duration, a record is expired exactly when the
    clock reading exceeds its timestamp by more than the TTL, so a record
    aged exactly TTL is still served; with the largest duration as TTL no
    record ever expires. *)
Theorem isExpired_boundary (c : streamCache) (now : Time.Time) (item : cacheItem) :
  Int64.in_range (TTL (config c)) ->
  (TTL (config c) < Int64.max_value ->
     (isExpired c now item = true <-> TTL (config c) < now - timestamp item)) /\
  (TTL (config c) = Int64.max_value -> isExpired c now item = false).
Proof.
  intros Hr. split.
  - apply isExpired_lt, Hr.
  - unfold Int64.in_range, isExpired, Time.Since, Time.Sub in *.
    intros Heq. apply Z.ltb_ge. lia.
Qed.

Lemma isExpired_boundary_witness :
  let item := mkCacheItem alice 1000 1000 0 in
  isExpired tiny_cache (1000 + 1 * Time.Minute) item = false /\
  isExpired tiny_cache (1000 + 1 * Time.Minute + 1) item = true.
Proof.
  intros item.
  assert (Hr : Int64.in_range (TTL (config tiny_cache)))
    by (vm_compute; split; discriminate).
  destruct (isExpired_boundary tiny_cache (1000 + 1 * Time.Minute) item Hr) as [H1 _].
  destruct (isExpired_boundary tiny_cache (1000 + 1 * Time.Minute + 1) item Hr) as [H2 _].
  specialize (H1 eq_refl). specialize (H2 eq_refl).
  split.
  - apply not_true_is_false. intros E. apply H1 in E. vm_compute in E. discriminate E.
  - apply H2. reflexivity.
Defined.

(** X9. With a negative TTL, which the constructors accept, a record is
    expired as soon as the clock reading is not before its timestamp:
    provided [make] returns the result channel for the buffer size, [Get]
    on its id (with a producer that takes the send of its [select])
    delivers a cache miss although the record is in the index. *)
Theorem negative_TTL_always_misses (zeroT : Value) (c : streamCache)
    (now : Time.Time) (id : string) (item : cacheItem) :
  TTL (config c) < 0 ->
  Int64.in_range (TTL (config c)) ->
  Get_makes_chan zeroT c ->
  items c !! id = Some item ->
  timestamp item <= now ->
  exists c' r,
    StreamCache.Get zeroT c now SelectSend id
      = Ok (c', mkChan (BufferSize (config c)) [r] true) /\
    Cached r = false /\ Error r = Some ErrCacheMiss /\
    items c' = items c.
Proof.
  intros Hneg Hr Hbuf Hl Hts.
  assert (He : isExpired c now item = true).
  { apply (isExpired_lt c now item Hr); [unfold Int64.max_value, Int64.half_modulus |];
      lia. }
  unfold StreamCache.Get. use_make Hbuf.
  rewrite Hl, He. simpl. eexists. eexists. repeat split.
Qed.

Lemma negative_TTL_always_misses_witness :
  NewStreamCache negative_ttl_config None = Ok negative_ttl_cache /\
  exists c' r,
    StreamCache.Get zero_TestData (ingest negative_ttl_cache [created 1000 alice])
      1000 SelectSend "a" = Ok (c', mkChan 1 [r] true) /\
    Error r = Some ErrCacheMiss /\
    items c' !! "a" = Some (mkCacheItem alice 1000 1000 0).
Proof.
  split; [reflexivity |].
  destruct (negative_TTL_always_misses zero_TestData
              (ingest negative_ttl_cache [created 1000 alice]) 1000 "a"
              (mkCacheItem alice 1000 1000 0))
    as (c' & r & HG & _ & He & Hi).
  - reflexivity.
  - vm_compute. split; discriminate.
  - eexists. reflexivity.
  - reflexivity.
  - discriminate.
  - exists c', r. split; [exact HG |]. split; [exact He |]. rewrite Hi. reflexivity.
Defined.

(** ** Ids and events *)

(** X10. [extractID] yields a non-empty id exactly for a struct, or a
    pointer to a struct, whose field [ID] is a string holding that id; for
    every other payload (another kind, a nil pointer, a pointer to a
    pointer, no [ID] field, an [ID] of another kind) it yields the empty
    string. *)
Theorem extractID_characterised (payload : Value) (id : string) :
  id <> "" ->
  (extractID payload = id <->
   exists fields,
     (payload = VStruct fields \/ payload = VPtr (VStruct fields)) /\
     reflect.lookup_field "ID" fields = Some (VString id)).
Proof.
  intros Hid. unfold extractID. split.
  - intros H.
    destruct payload as [| | | | | | fields | [| | | | | | fields |]];
      simpl in H; try congruence;
      exists fields;
      (split; [auto |]);
      destruct (reflect.lookup_field "ID" fields) as [[| | | | s | | |] |];
      simpl in H; congruence.
  - intros (fields & [-> | ->] & Hf); simpl; rewrite Hf; reflexivity.
Qed.

Lemma extractID_characterised_witness :
  extractID (VPtr alice) = "a" /\
  extractID (VPtr (VPtr alice)) = "" /\
  extractID (VStruct [("ID", VInt 7)]) = "".
Proof.
  split; [| split; reflexivity].
  apply (extractID_characterised (VPtr alice) "a"); [discriminate |].
  eexists. split; [right; reflexivity | reflexivity].
Defined.

(** X11. [handleEvent] ignores an event whose payload has no id, an event
    of a type other than Created, Updated and Deleted, and a Deleted event
    for an id that is not in the index: the cache, statistics included, is
    left exactly as it was. *)
Theorem handleEvent_ignored (c : streamCache) (t_stamp t_version : Time.Time)
    (e : Event) :
  extractID (Payload e) = "" \/
  (exists tag, Type_ e = OtherEvent tag) \/
  (Type_ e = DeletedEvent /\ items c !! extractID (Payload e) = None) ->
  handleEvent c t_stamp t_version e = c.
Proof.
  intros [H | [[tag H] | [H1 H2]]]; unfold handleEvent.
  - rewrite H. reflexivity.
  - rewrite H. destruct (String.eqb _ ""); reflexivity.
  - rewrite H1, H2. destruct (String.eqb _ ""); reflexivity.
Qed.

Lemma handleEvent_ignored_witness :
  handleEvent two_records 5000 5000 (mkEvent CreatedEvent ghost) = two_records /\
  handleEvent two_records 5000 5000 (mkEvent (OtherEvent "renamed") alice) = two_records /\
  handleEvent two_records 5000 5000 (mkEvent DeletedEvent (TestData "c" "Carol" 41))
    = two_records.
Proof.
  split; [| split]; apply handleEvent_ignored.
  - left. reflexivity.
  - right. left. eexists. reflexivity.
  - right. right. split; reflexivity.
Defined.

(** X12. A Created or Updated event for an id that is already cached
    refreshes the record in place: payload, timestamp and version are
    replaced, the record's hits are kept, no other record changes and the
    statistics, [ItemCount] included, stay as they were. *)
Theorem handleEvent_refresh (c : streamCache) (t_stamp t_version : Time.Time)
    (e : Event) (existing : cacheItem) :
  is_insert e = true ->
  items c !! extractID (Payload e) = Some existing ->
  let c' := handleEvent c t_stamp t_version e in
  items c' = <[extractID (Payload e) :=
                 mkCacheItem (Payload e) t_stamp (Time.UnixNano t_version)
                             (hits existing)]> (items c) /\
  size (items c') = size (items c) /\
  StreamCache.Stats c' = StreamCache.Stats c.
Proof.
  intros Hins Hl c'.
  assert (Hc' : c' = set_items c
                  (<[extractID (Payload e) :=
                       mkCacheItem (Payload e) t_stamp (Time.UnixNano t_version)
                                   (hits existing)]> (items c))).
  { unfold c', handleEvent. unfold is_insert in Hins.
    destruct (String.eqb (extractID (Payload e)) "");
      [destruct (Type_ e); discriminate |].
    rewrite Hl. destruct (Type_ e); try discriminate; reflexivity. }
  rewrite Hc'. simpl. split; [reflexivity |]. split; [| reflexivity].
  apply map_size_insert_Some. rewrite Hl. eauto.
Qed.

Lemma handleEvent_refresh_witness :
  let c2 := handleEvent alice_hit_once 4000 4001 (mkEvent UpdatedEvent alicia) in
  items c2 !! "a" = Some (mkCacheItem alicia 4000 4001 1) /\
  ItemCount (StreamCache.Stats c2) = 2.
Proof.
  intros c2.
  destruct (handleEvent_refresh alice_hit_once 4000 4001 (mkEvent UpdatedEvent alicia)
              (mkCacheItem alice 1000 1000 1) eq_refl eq_refl) as (Hi & _ & Hs).
  split.
  - unfold c2. rewrite Hi. reflexivity.
  - unfold c2. rewrite Hs. reflexivity.
Defined.

(** ** Clear *)

(** X13. [Clear] empties the index and sets [ItemCount] to zero, whatever
    it was before, while keeping the hit and miss counters; right after
    it, provided [make] returns the result channels of [Get] and of [List]
    for the buffer size and the producers take the send of their [select],
    every [Get] is a cache miss and every [List], with any filters,
    delivers an empty snapshot marked as cached. *)
Theorem Clear_empties (zeroT : Value) (c : streamCache) (now : Time.Time)
    (id : string) (filters : list Filter) :
  Get_makes_chan zeroT c ->
  List_makes_chan c ->
  let c' := StreamCache.Clear c in
  items c' = ∅ /\
  ItemCount (StreamCache.Stats c') = 0 /\
  HitCount (StreamCache.Stats c') = HitCount (StreamCache.Stats c) /\
  MissCount (StreamCache.Stats c') = MissCount (StreamCache.Stats c) /\
  (exists c'' r,
     StreamCache.Get zeroT c' now SelectSend id
       = Ok (c'', mkChan (BufferSize (config c)) [r] true) /\
     Cached r = false /\ Error r = Some ErrCacheMiss) /\
  (exists r,
     StreamCache.List c' now SelectSend filters
       = Ok (mkChan (BufferSize (config c)) [r] true) /\
     Data r = [] /\ Cached r = true /\ Error r = None).
Proof.
  intros Hbuf HbufL c'. repeat (split; [reflexivity |]).
  assert (Hcfg : config c' = config c) by reflexivity.
  apply (Get_makes_chan_config zeroT c c' Hcfg) in Hbuf.
  apply (List_makes_chan_config c c' Hcfg) in HbufL.
  split.
  - unfold StreamCache.Get. use_make Hbuf.
    rewrite lookup_empty. eexists. eexists. repeat split.
  - unfold StreamCache.List. use_make HbufL.
    rewrite map_to_list_empty. simpl. eexists. repeat split.
Qed.

Lemma Clear_empties_witness :
  let c' := StreamCache.Clear (StreamCache.Invalidate two_records ["zz"; "zz"; "zz"]) in
  ItemCount (StreamCache.Stats (StreamCache.Invalidate two_records ["zz"; "zz"; "zz"])) = -1 /\
  ItemCount (StreamCache.Stats c') = 0 /\
  exists r,
    StreamCache.List c' 3000 SelectSend [mkFilter "name" FilterEquals (VString "x")]
      = Ok (mkChan 10 [r] true) /\ Data r = [].
Proof.
  intros c'. split; [reflexivity |].
  destruct (Clear_empties zero_TestData
              (StreamCache.Invalidate two_records ["zz"; "zz"; "zz"]) 3000 "a"
              [mkFilter "name" FilterEquals (VString "x")])
    as (_ & Hn & _ & _ & _ & r & HL & Hd & _);
    [eexists; reflexivity | eexists; reflexivity |].
  split; [exact Hn |]. exists r. split; [exact HL | exact Hd].
Defined.

(** ** Filters on entities *)

Lemma matchesFilters_is_loop d filters :
  matchesFilters d filters = matchesFilters_loop (deref d) filters.
Proof. destruct filters; reflexivity. Qed.

Lemma matchesFilters_loop_app v fs gs :
  matchesFilters_loop v (fs ++ gs) =
  match matchesFilters_loop v fs with
  | Ok true => matchesFilters_loop v gs
  | r => r
  end.
Proof.
  induction fs as [| f fs IH]; [reflexivity |].
  simpl. destruct (reflect.FieldByName v (Field f)) as [[x |] | msg]; simpl;
    [| exact IH | reflexivity].
  destruct (Interface (Field f) x) as [value | msg]; simpl; [| reflexivity].
  destruct (matchesFilter value f); simpl; [exact IH | reflexivity].
Qed.

Lemma matchesFilters_loop_exported fields filters :
  Forall (fun f => is_exported (Field f) = true) filters ->
  matchesFilters_loop (Some (VStruct fields)) filters
  = Ok (forallb (filter_verdict fields) filters).
Proof.
  induction filters as [| f filters IH]; intros H; [reflexivity |].
  apply Forall_cons in H as [Hf Hrest]. specialize (IH Hrest).
  simpl. unfold filter_verdict at 1.
  destruct (reflect.lookup_field (Field f) fields) as [x |]; simpl; [| exact IH].
  unfold Interface. rewrite Hf. simpl.
  destruct (matchesFilter x f); simpl; [exact IH | reflexivity].
Qed.

Lemma deref_of_id d : extractID d <> "" -> exists fields, deref d = Some (VStruct fields).
Proof.
  unfold extractID, deref.
  destruct d as [| | | | | | fields | [| | | | | | fields |]]; simpl;
    try congruence; intros _; eexists; reflexivity.
Qed.

(** X14. [matchesFilters] with no filters accepts any payload without
    looking at it; with at least one filter it panics on a payload that is
    neither a struct nor a pointer to a struct, and on a struct that has the
    first filter's field under an unexported name. *)
Theorem matchesFilters_edges (d : Value) (f : Filter) (rest : list Filter) :
  matchesFilters d [] = Ok true /\
  ((forall fields, d <> VStruct fields /\ d <> VPtr (VStruct fields)) ->
   exists msg, matchesFilters d (f :: rest) = Panic msg) /\
  (forall fields x,
     d = VStruct fields \/ d = VPtr (VStruct fields) ->
     reflect.lookup_field (Field f) fields = Some x ->
     is_exported (Field f) = false ->
     exists msg, matchesFilters d (f :: rest) = Panic msg).
Proof.
  split; [reflexivity |]. split.
  - intros Hd. unfold matchesFilters. simpl.
    destruct d as [| | | | | | fields | [| | | | | | fields |]]; simpl;
      try (eexists; reflexivity).
    + destruct (Hd fields) as [H _]. congruence.
    + destruct (Hd fields) as [_ H]. congruence.
  - intros fields x Hd Hf Hexp. unfold matchesFilters. simpl.
    destruct Hd as [-> | ->]; simpl; rewrite Hf; simpl;
      unfold Interface; rewrite Hexp; simpl; eexists; reflexivity.
Qed.

Lemma matchesFilters_edges_witness :
  (exists msg, matchesFilters (VInt 3) [age_is_30] = Panic msg) /\
  (exists msg, matchesFilters VNil [age_is_30] = Panic msg) /\
  (exists msg, matchesFilters (VStruct [("ID", VString "a"); ("name", VString "x")])
                 [mkFilter "name" FilterEquals (VString "x")] = Panic msg) /\
  matchesFilters (VInt 3) [] = Ok true.
Proof.
  destruct (matchesFilters_edges (VInt 3) age_is_30 []) as (H0 & H1 & _).
  destruct (matchesFilters_edges VNil age_is_30 []) as (_ & H2 & _).
  destruct (matchesFilters_edges (VStruct [("ID", VString "a"); ("name", VString "x")])
              (mkFilter "name" FilterEquals (VString "x")) []) as (_ & _ & H3).
  split; [apply H1; intros fields; split; discriminate |].
  split; [apply H2; intros fields; split; discriminate |].
  split; [| exact H0].
  apply (H3 [("ID", VString "a"); ("name", VString "x")] (VString "x"));
    [left; reflexivity | reflexivity | reflexivity].
Defined.

(** X15. Filters combine by conjunction, in any order: when
    [matchesFilters] returns on two filter lists separately, it returns the
    conjunction of the two verdicts on their concatenation, either way
    round. *)
Theorem matchesFilters_conjunction (d : Value) (fs gs : list Filter) (b1 b2 : bool) :
  matchesFilters d fs = Ok b1 ->
  matchesFilters d gs = Ok b2 ->
  matchesFilters d (fs ++ gs) = Ok (b1 && b2) /\
  matchesFilters d (gs ++ fs) = Ok (b1 && b2).
Proof.
  rewrite !matchesFilters_is_loop, !matchesFilters_loop_app.
  intros -> ->. destruct b1, b2; split; reflexivity.
Qed.

Lemma matchesFilters_conjunction_witness :
  let by_session := mkFilter "SessionID" FilterEquals (VString "S") in
  let by_role := mkFilter "Role" FilterEquals (VString "user") in
  matchesFilters msg1 [by_session; by_role] = Ok true /\
  matchesFilters msg2 [by_role; by_session] = Ok false.
Proof.
  intros by_session by_role. split.
  - apply (matchesFilters_conjunction msg1 [by_session] [by_role] true true); reflexivity.
  - apply (matchesFilters_conjunction msg2 [by_session] [by_role] true false); reflexivity.
Defined.

Lemma filter_verdict_eq fields f :
  Operator f = FilterEquals ->
  (filter_verdict fields f = true <->
   reflect.lookup_field (Field f) fields = Some (FValue f) \/
   reflect.lookup_field (Field f) fields = None).
Proof.
  intros Hop. unfold filter_verdict, matchesFilter. rewrite Hop. simpl.
  destruct (reflect.lookup_field (Field f) fields) as [x |].
  - rewrite DeepEqual_eq. split; [intros ->; left; reflexivity |].
    intros [H | H]; congruence.
  - split; [right; reflexivity | reflexivity].
Qed.

Lemma matchesFilters_eq_filters d filters :
  extractID d <> "" ->
  Forall is_eq_filter filters ->
  exists b, matchesFilters d filters = Ok b /\
            (b = true <-> Forall (passes_eq d) filters).
Proof.
  intros Hid Heq. destruct (deref_of_id d Hid) as [fields Hd].
  rewrite matchesFilters_is_loop, Hd.
  rewrite matchesFilters_loop_exported
    by (eapply Forall_impl; [exact Heq | intros f Hf; apply Hf]).
  eexists. split; [reflexivity |].
  rewrite forallb_forall, <- List.Forall_forall.
  split; intros H.
  - rewrite Forall_forall in *. intros f Hf.
    unfold passes_eq, field_of. rewrite Hd.
    apply filter_verdict_eq; [apply (Heq f Hf) | apply (H f Hf)].
  - rewrite Forall_forall in *. intros f Hf.
    apply filter_verdict_eq; [apply (Heq f Hf) |].
    specialize (H f Hf). unfold passes_eq, field_of in H. rewrite Hd in H. exact H.
Qed.

Lemma List_eq_filters c now filters :
  List_makes_chan c ->
  items_wf c ->
  Forall is_eq_filter filters ->
  exists r,
    StreamCache.List c now SelectSend filters
      = Ok (mkChan (BufferSize (config c)) [r] true) /\
    Cached r = true /\ Error r = None /\
    forall x,
      x ∈ Data r <->
      exists id item,
        items c !! id = Some item /\ isExpired c now item = false /\
        data item = x /\ Forall (passes_eq x) filters.
Proof.
  intros Hbuf Hwf Heq.
  assert (Happly : filters_apply c now filters).
  { apply filters_apply_wf; [exact Hwf |].
    eapply Forall_impl; [exact Heq | intros f Hf; apply Hf]. }
  destruct (List_single_snapshot c now SelectSend filters Hbuf Happly)
    as (ch & HL & _ & _ & _ & Hsend).
  destruct (Hsend eq_refl) as (r & Hr & Hc & He & kvs & Hdata & _ & Hkvs).
  destruct (List_inv _ _ _ _ _ HL) as [_ Hch]. rewrite Hr in Hch.
  exists r. split; [rewrite HL, Hch; reflexivity |].
  split; [exact Hc |]. split; [exact He |].
  intros x. rewrite Hdata, list_elem_of_fmap. split.
  - intros ([id item] & -> & Hin). apply Hkvs in Hin as (Hl & Hexp & Hm).
    exists id, item. repeat split; try assumption. simpl.
    destruct (matchesFilters_eq_filters (data item) filters) as (b & Hb & Hiff);
      [destruct (Hwf id item Hl); congruence | exact Heq |].
    apply Hiff. congruence.
  - intros (id & item & Hl & Hexp & <- & Hpass).
    exists (id, item). split; [reflexivity |]. apply Hkvs.
    split; [exact Hl |]. split; [exact Hexp |].
    destruct (matchesFilters_eq_filters (data item) filters) as (b & Hb & Hiff);
      [destruct (Hwf id item Hl); congruence | exact Heq |].
    rewrite Hb. f_equal. apply Hiff, Hpass.
Qed.

(** ** The entity caches *)



(** X17. On a cache whose records are keyed by their own ids and for
    whose buffer size [make] returns the result channel of [List], and
    with producers that take the send of their [select],
    [ListMessagesBySessionAndRole] delivers the intersection of what
    [ListMessagesBySession] and [ListMessagesByRole] deliver at the same
    clock reading: a message is in its snapshot if and only if it is in
    both of theirs. *)
Theorem ListMessagesBySessionAndRole_intersects (c : streamCache)
    (now : Time.Time) (sessionID : string) (role : Value) :
  List_makes_chan c ->
  items_wf c ->
  exists r rs rr,
    MessageCache.ListMessagesBySessionAndRole c now SelectSend sessionID role
      = Ok (mkChan (BufferSize (config c)) [r] true) /\
    MessageCache.ListMessagesBySession c now SelectSend sessionID
      = Ok (mkChan (BufferSize (config c)) [rs] true) /\
    MessageCache.ListMessagesByRole c now SelectSend role
      = Ok (mkChan (BufferSize (config c)) [rr] true) /\
    forall x, x ∈ Data r <-> x ∈ Data rs /\ x ∈ Data rr.
Proof.
  intros Hbuf Hwf.
  unfold MessageCache.ListMessagesBySessionAndRole,
    MessageCache.ListMessagesBySession, MessageCache.ListMessagesByRole.
  set (fs := mkFilter "SessionID" FilterEquals (VString sessionID)).
  set (fr := mkFilter "Role" FilterEquals role).
  destruct (List_eq_filters c now [fs; fr] Hbuf Hwf) as (r & HL & _ & _ & Hiff);
    [repeat constructor |].
  destruct (List_eq_filters c now [fs] Hbuf Hwf) as (rs & HLs & _ & _ & Hiffs);
    [repeat constructor |].
  destruct (List_eq_filters c now [fr] Hbuf Hwf) as (rr & HLr & _ & _ & Hiffr);
    [repeat constructor |].
  exists r, rs, rr. split; [exact HL |]. split; [exact HLs |]. split; [exact HLr |].
  intros x. rewrite Hiff, Hiffs, Hiffr. split.
  - intros (id & item & H1 & H2 & H3 & Hp).
    apply Forall_cons in Hp as [Hs Hp]. apply Forall_cons in Hp as [Hr _].
    split; exists id, item; repeat split; try assumption;
      (apply Forall_cons; split; [assumption | constructor]).
  - intros [(id & item & H1 & H2 & H3 & Hs) (_ & _ & _ & _ & _ & Hr)].
    apply Forall_cons in Hs as [Hs _]. apply Forall_cons in Hr as [Hr _].
    exists id, item. repeat split; try assumption.
    apply Forall_cons. split; [exact Hs |].
    apply Forall_cons. split; [exact Hr | constructor].
Qed.

Lemma ListMessagesBySessionAndRole_intersects_witness :
  exists r,
    MessageCache.ListMessagesBySessionAndRole three_messages 5000 SelectSend
      "S" (VString "user") = Ok (mkChan 64 [r] true) /\
    Data r = [msg1].
Proof.
  destruct (ListMessagesBySessionAndRole_intersects three_messages 5000 "S"
              (VString "user")) as (r & rs & rr & HL & _ & _ & _).
  - eexists. reflexivity.
  - apply (ingest_wf default_cache), (NewStreamCache_wf _ _ _ NewStreamCache_default).
  - exists r. split; [exact HL |]. vm_compute in HL. injection HL as <-. reflexivity.
Defined.



(** ** Construction failures and unusable configurations *)

(** X19. [NewStreamCache] returns a cache exactly when the TTL is zero
    (the defaults are then used) or the cleanup interval is positive; in
    every other case it panics in [time.NewTicker]. *)
Theorem NewStreamCache_returns_iff (cfg : CacheConfig) (sub : option EventSource) :
  ((exists c, NewStreamCache cfg sub = Ok c) <->
   TTL cfg = 0 \/ 0 < CleanupInterval cfg) /\
  ((exists msg, NewStreamCache cfg sub = Panic msg) <->
   TTL cfg <> 0 /\ CleanupInterval cfg <= 0).
Proof.
  unfold NewStreamCache, NewTicker.
  destruct (Z.eqb_spec (TTL cfg) 0) as [E | E]; simpl.
  - split; split.
    + intros _. left. exact E.
    + intros _. eexists. reflexivity.
    + intros [msg H]. discriminate H.
    + intros [H _]. contradiction.
  - destruct (Z.leb_spec (CleanupInterval cfg) 0) as [Hle | Hgt]; simpl; split; split.
    + intros [c H]. discriminate H.
    + intros [H | H]; [contradiction | lia].
    + intros _. split; assumption.
    + intros _. eexists. reflexivity.
    + intros _. right. exact Hgt.
    + intros _. eexists. reflexivity.
    + intros [msg H]. discriminate H.
    + intros [_ H]. lia.
Qed.

Lemma NewStreamCache_returns_iff_witness :
  (exists c, NewStreamCache (mkCacheConfig 0 0 0 0) None = Ok c) /\
  (exists msg, NewStreamCache (mkCacheConfig Time.Second 100 (-5) 8) None = Panic msg).
Proof.
  split.
  - apply (NewStreamCache_returns_iff (mkCacheConfig 0 0 0 0) None). left. reflexivity.
  - apply (NewStreamCache_returns_iff (mkCacheConfig Time.Second 100 (-5) 8) None).
    split; discriminate.
Defined.

(** X20. A configuration with a non-zero TTL, a positive cleanup interval
    and a negative buffer size is accepted by [NewStreamCache], and the
    cache it yields is unusable: every [Get], [List] and [Query] panics when
    making its channel. *)
Theorem negative_BufferSize_panics (cfg : CacheConfig) (sub : option EventSource) :
  TTL cfg <> 0 -> 0 < CleanupInterval cfg -> BufferSize cfg < 0 ->
  exists c,
    NewStreamCache cfg sub = Ok c /\
    forall c', config c' = config c ->
      (forall zeroT now sel id,
         StreamCache.Get zeroT c' now sel id = Panic "makechan: size out of range") /\
      (forall now sel filters,
         StreamCache.List c' now sel filters = Panic "makechan: size out of range") /\
      (forall now sel sels q,
         StreamCache.Query c' now sel sels q = Panic "makechan: size out of range").
Proof.
  intros Httl Hint Hbuf. unfold NewStreamCache, NewTicker.
  destruct (Z.eqb_spec (TTL cfg) 0) as [E | _]; [contradiction |].
  destruct (Z.leb_spec (CleanupInterval cfg) 0) as [? | _]; [lia |]. simpl.
  eexists. split; [reflexivity |]. simpl. intros c' Hc'.
  assert (Hlt : BufferSize (config c') < 0) by (rewrite Hc'; exact Hbuf).
  unfold StreamCache.Get, StreamCache.List, StreamCache.Query.
  repeat split; intros; rewrite make_chan_negative by exact Hlt; reflexivity.
Qed.

Lemma negative_BufferSize_panics_witness :
  exists c,
    NewStreamCache (mkCacheConfig Time.Minute 10 Time.Second (-1)) None = Ok c /\
    StreamCache.List (ingest c [created 1000 alice]) 2000 SelectSend []
      = Panic "makechan: size out of range".
Proof.
  destruct (negative_BufferSize_panics (mkCacheConfig Time.Minute 10 Time.Second (-1)) None)
    as (c & Hc & Hall); [discriminate | reflexivity | reflexivity |].
  exists c. split; [exact Hc |].
  apply (Hall (ingest c [created 1000 alice]) (ingest_config c _)).
Defined.

(** ** Closing *)

Lemma List_collect_config c c1 now filters its :
  config c1 = config c ->
  StreamCache.List_collect c1 now filters its = StreamCache.List_collect c now filters its.
Proof.
  intros Hcfg. induction its as [| [k item] its IH]; [reflexivity |].
  simpl. unfold isExpired. rewrite Hcfg, IH. reflexivity.
Qed.

Lemma List_config_items c c1 now sel filters :
  config c1 = config c -> items c1 = items c ->
  StreamCache.List c1 now sel filters = StreamCache.List c now sel filters.
Proof.
  intros Hcfg Hitems. unfold StreamCache.List.
  rewrite Hcfg, Hitems, (List_collect_config c c1 now filters _ Hcfg). reflexivity.
Qed.

(** X21. [Close] only signals the background tasks: the closed cache still
    serves.  After a successful [Close], [Get] and [List] return what they
    returned before it, and an event handled afterwards updates the index
    as before. *)
Theorem Close_leaves_cache_readable (zeroT : Value) (c c1 : streamCache) (e : error) :
  StreamCache.Close c = Ok (c1, e) ->
  (forall now sel id, Get_chan zeroT c1 now sel id = Get_chan zeroT c now sel id) /\
  (forall now sel filters,
     StreamCache.List c1 now sel filters = StreamCache.List c now sel filters) /\
  (forall t1 t2 ev,
     items (handleEvent c1 t1 t2 ev) = items (handleEvent c t1 t2 ev)).
Proof.
  unfold StreamCache.Close.
  destruct (done c); [discriminate |]. destruct (eventDone c); [discriminate |].
  intros H. injection H as <- _. split; [| split].
  - intros now sel id. unfold Get_chan, StreamCache.Get. simpl.
    case_make; [| reflexivity].
    destruct (items c !! id) as [item |];
      [unfold isExpired; simpl; destruct (negb _) |]; destruct sel; reflexivity.
  - intros now sel filters. apply List_config_items; reflexivity.
  - intros t1 t2 ev. unfold handleEvent. simpl.
    destruct (String.eqb _ ""); [reflexivity |].
    destruct (Type_ ev); destruct (items c !! extractID (Payload ev)); reflexivity.
Qed.

Lemma Close_leaves_cache_readable_witness :
  exists c1,
    StreamCache.Close two_records = Ok (c1, None) /\
    Get_chan zero_TestData c1 3000 SelectSend "a"
      = Get_chan zero_TestData two_records 3000 SelectSend "a" /\
    items (handleEvent c1 4000 4000 (mkEvent DeletedEvent alice)) !! "a" = None.
Proof.
  eexists. split; [reflexivity |].
  edestruct (Close_leaves_cache_readable zero_TestData two_records) as (HG & _ & HE);
    [reflexivity |].
  split; [apply HG |]. rewrite HE. reflexivity.
Defined.

(** ** The manager and its entity caches *)

Lemma Close_once_closes c :
  done c = false -> eventDone c = false ->
  exists c1, StreamCache.Close c = Ok (c1, None).
Proof.
  intros Hd He. unfold StreamCache.Close. rewrite Hd, He. eexists. reflexivity.
Qed.

Lemma Close_result c c1 e :
  StreamCache.Close c = Ok (c1, e) ->
  e = None /\ done c1 = true /\ eventDone c1 = true /\
  config c1 = config c /\ items c1 = items c /\ stats c1 = stats c /\
  (forall t, cleanup c = Some t -> cleanup c1 = Some (Ticker_Stop t)).
Proof.
  unfold StreamCache.Close.
  destruct (done c); [discriminate |]. destruct (eventDone c); [discriminate |].
  intros H. injection H as <- <-. simpl. repeat split.
  intros t Ht. rewrite Ht. reflexivity.
Qed.

Lemma NewStreamCache_Ok_cond cfg sub :
  (exists c, NewStreamCache cfg sub = Ok c) <-> TTL cfg = 0 \/ 0 < CleanupInterval cfg.
Proof.
  unfold NewStreamCache, NewTicker.
  destruct (Z.eqb_spec (TTL cfg) 0) as [E | E]; simpl.
  - split; [intros _; left; exact E | intros _; eexists; reflexivity].
  - destruct (Z.leb_spec (CleanupInterval cfg) 0) as [Hle | Hgt]; simpl; split.
    + intros [c H]. discriminate H.
    + intros [H | H]; [contradiction | lia].
    + intros _. right. exact Hgt.
    + intros _. eexists. reflexivity.
Qed.

Lemma NewStreamCache_sub_irrelevant cfg sub sub' c :
  NewStreamCache cfg sub = Ok c -> exists c', NewStreamCache cfg sub' = Ok c'.
Proof.
  intros H. apply NewStreamCache_Ok_cond. apply (NewStreamCache_Ok_cond cfg sub).
  eexists. exact H.
Qed.



Lemma stop_entity_closes p svc cfg (h h' : Heap) c c' errs :
  h !! p = Some c ->
  StreamCache.Close c = Ok (c', None) ->
  <[p := c']> h = h' ->
  Manager.stop_entity (Some (mkEntityCacheManager (Some p) svc cfg)) h errs
  = Ok (h', errs).
Proof.
  intros Hl HC <-. unfold Manager.stop_entity, EntityCacheManager.Stop.
  cbn [cache]. rewrite Hl. cbn [bind]. rewrite HC. reflexivity.
Qed.

Lemma Manager_Stop_after_Start m h m1 h1 :
  started m = false ->
  Manager.Start m h = Ok (m1, h1, None) ->
  exists c1 c2 c1' c2',
    h1 = h ++ [c1; c2] /\
    StreamCache.Close c1 = Ok (c1', None) /\
    StreamCache.Close c2 = Ok (c2', None) /\
    stats c1 = zero_stats /\ stats c2 = zero_stats /\
    Manager.Sessions m1 = Some (length h) /\
    Manager.Messages m1 = Some (S (length h)) /\
    Manager.Stop m1 h1 =
      Ok (mkManager (manager_config m1) (sessionManager m1) (messageManager m1)
                    (sessionService m1) (messageService m1) (historyService m1)
                    (Some true) false,
          h ++ [c1'; c2'], None).
Proof.
  intros Hs Hstart.
  destruct (Manager_Start_inv _ _ _ _ _ Hs Hstart)
    as (_ & s1 & s2 & c1 & c2 & _ & _ & Hc1 & Hc2 & -> & ->).
  destruct (NewStreamCache_fresh _ _ _ Hc1) as (_ & Hst1 & Hd1 & He1).
  destruct (NewStreamCache_fresh _ _ _ Hc2) as (_ & Hst2 & Hd2 & He2).
  destruct (Close_once_closes c1 Hd1 He1) as (c1' & HC1).
  destruct (Close_once_closes c2 Hd2 He2) as (c2' & HC2).
  exists c1, c2, c1', c2'.
  split; [reflexivity |]. split; [exact HC1 |]. split; [exact HC2 |].
  split; [exact Hst1 |]. split; [exact Hst2 |].
  split; [reflexivity |]. split; [reflexivity |].
  assert (Hl1 : (h ++ [c1; c2]) !! length h = Some c1).
  { rewrite lookup_app_r by lia. rewrite Nat.sub_diag. reflexivity. }
  assert (Hi1 : <[length h := c1']> (h ++ [c1; c2] : Heap) = h ++ [c1'; c2]).
  { unfold Heap. rewrite insert_app_r_alt by lia. rewrite Nat.sub_diag. reflexivity. }
  assert (Hl2 : (h ++ [c1'; c2]) !! S (length h) = Some c2).
  { rewrite lookup_app_r by lia.
    replace (S (length h) - length h)%nat with 1%nat by lia. reflexivity. }
  assert (Hi2 : <[S (length h) := c2']> (h ++ [c1'; c2] : Heap) = h ++ [c1'; c2']).
  { unfold Heap. rewrite insert_app_r_alt by lia.
    replace (S (length h) - length h)%nat with 1%nat by lia. reflexivity. }
  unfold Manager.Stop. cbn [started negb sessionManager messageManager ctx].
  rewrite (stop_entity_closes _ _ _ _ _ c1 c1' [] Hl1 HC1 Hi1). cbn [bind].
  rewrite (stop_entity_closes _ _ _ _ _ c2 c2' [] Hl2 HC2 Hi2). reflexivity.
Qed.

(** X23. [Manager.Stop] after a successful [Start] returns nil, marks the
    manager as not started, cancels its context and closes both cache
    instances ([done] and [eventDone] closed, ticker stopped) without
    touching any other cache; the manager keeps both instances installed, so
    [Sessions()] and [Messages()] still return them. *)
Theorem Manager_Stop_closes_caches (m : Manager) (h : Heap) (m1 : Manager) (h1 : Heap) :
  started m = false ->
  Manager.Start m h = Ok (m1, h1, None) ->
  exists m2 h2 ps pm cs cm,
    Manager.Stop m1 h1 = Ok (m2, h2, None) /\
    Manager.IsStarted m2 = false /\ ctx m2 = Some true /\
    Manager.Sessions m1 = Some ps /\ Manager.Messages m1 = Some pm /\
    Manager.Sessions m2 = Some ps /\ Manager.Messages m2 = Some pm /\
    h2 !! ps = Some cs /\ h2 !! pm = Some cm /\
    done cs = true /\ eventDone cs = true /\
    done cm = true /\ eventDone cm = true /\
    (forall t, cleanup cs = Some t -> stopped t = true) /\
    (forall t, cleanup cm = Some t -> stopped t = true) /\
    take (length h) h2 = h /\ length h2 = length h1.
Proof.
  intros Hs Hstart.
  destruct (Manager_Stop_after_Start m h m1 h1 Hs Hstart)
    as (c1 & c2 & c1' & c2' & Hh1 & HC1 & HC2 & _ & _ & Hps & Hpm & Hstop).
  destruct (Close_result _ _ _ HC1) as (_ & Hd1 & He1 & _ & _ & _ & Ht1).
  destruct (Close_result _ _ _ HC2) as (_ & Hd2 & He2 & _ & _ & _ & Ht2).
  assert (Hlk1 : (h ++ [c1'; c2']) !! length h = Some c1').
  { rewrite lookup_app_r by lia. rewrite Nat.sub_diag. reflexivity. }
  assert (Hlk2 : (h ++ [c1'; c2']) !! S (length h) = Some c2').
  { rewrite lookup_app_r by lia.
    replace (S (length h) - length h)%nat with 1%nat by lia. reflexivity. }
  eexists. exists (h ++ [c1'; c2']), (length h), (S (length h)), c1', c2'.
  split; [exact Hstop |].
  split; [reflexivity |]. split; [reflexivity |].
  split; [exact Hps |]. split; [exact Hpm |].
  split; [exact Hps |]. split; [exact Hpm |].
  split; [exact Hlk1 |]. split; [exact Hlk2 |].
  split; [exact Hd1 |]. split; [exact He1 |].
  split; [exact Hd2 |]. split; [exact He2 |].
  split.
  { intros t Ht. unfold StreamCache.Close in HC1.
    destruct (done c1); [discriminate |]. destruct (eventDone c1); [discriminate |].
    injection HC1 as <-. simpl in Ht.
    destruct (cleanup c1); [| discriminate]. injection Ht as <-. reflexivity. }
  split.
  { intros t Ht. unfold StreamCache.Close in HC2.
    destruct (done c2); [discriminate |]. destruct (eventDone c2); [discriminate |].
    injection HC2 as <-. simpl in Ht.
    destruct (cleanup c2); [| discriminate]. injection Ht as <-. reflexivity. }
  split; [apply take_app_length |].
  rewrite Hh1, !length_app. reflexivity.
Qed.

Lemma Manager_Stop_closes_caches_witness :
  let '(m1, h1) := sample_started in
  exists m2 h2 cs,
    Manager.Stop m1 h1 = Ok (m2, h2, None) /\
    Manager.Sessions m2 = Some 0%nat /\
    h2 !! 0%nat = Some cs /\ done cs = true /\ eventDone cs = true.
Proof.
  destruct sample_started as [m1 h1] eqn:E1.
  vm_compute in E1. injection E1 as <- <-.
  edestruct (Manager_Stop_closes_caches sample_manager []) as
    (m2 & h2 & ps & pm & cs & cm & HS & _ & _ & Hps1 & _ & Hps & _ & Hcs & _ & Hd & He & _);
    [reflexivity | reflexivity |].
  vm_compute in Hps1. injection Hps1 as <-.
  exists m2, h2, cs.
  exact (conj HS (conj Hps (conj Hcs (conj Hd He)))).
Defined.

(** X24. Stopping an entity cache manager twice panics: [Stop] closes the
    cache it holds but keeps holding it, so a second [Stop] on the same
    manager closes the closed [done] channel again. *)
Theorem EntityCacheManager_Stop_twice_panics (em : EntityCacheManager)
    (h h1 : Heap) (e : error) (p : Ptr) :
  cache em = Some p ->
  EntityCacheManager.Stop em h = Ok (h1, e) ->
  e = None /\
  EntityCacheManager.GetCache em = Some p /\
  EntityCacheManager.Stop em h1 = Panic "close of closed channel".
Proof.
  intros Hp. unfold EntityCacheManager.Stop, EntityCacheManager.GetCache. rewrite Hp.
  destruct (h !! p) as [c |] eqn:Hl; [| discriminate].
  destruct (StreamCache.Close c) as [[c' err] |] eqn:HC; cbn [bind]; [| discriminate].
  intros H. injection H as <- <-.
  destruct (Close_result _ _ _ HC) as (-> & Hd & _).
  split; [reflexivity |]. split; [reflexivity |].
  replace (<[p := c']> h !! p) with (Some c').
  - cbn [bind]. unfold StreamCache.Close. rewrite Hd. reflexivity.
  - symmetry. apply list_lookup_insert_eq, lookup_lt_is_Some. exists c. exact Hl.
Qed.

Lemma EntityCacheManager_Stop_twice_panics_witness :
  let '(em, h1) := sample_entity in
  exists h2,
    EntityCacheManager.Stop em h1 = Ok (h2, None) /\
    EntityCacheManager.Stop em h2 = Panic "close of closed channel".
Proof.
  destruct sample_entity as [em h1] eqn:E.
  vm_compute in E. injection E as <- <-.
  match goal with
  | |- exists h2, EntityCacheManager.Stop ?em ?h1 = _ /\ _ =>
      destruct (EntityCacheManager.Stop em h1) as [[h2 e] |] eqn:ES;
        [| vm_compute in ES; discriminate ES];
      destruct (EntityCacheManager_Stop_twice_panics em h1 h2 e 0%nat eq_refl ES)
        as (-> & _ & HP)
  end.
  exists h2. split; [reflexivity | exact HP].
Defined.

Lemma Manager_Stats_two m (h : Heap) ps pm cs cm svc1 svc2 cfg1 cfg2 :
  sessionManager m = Some (mkEntityCacheManager (Some ps) svc1 cfg1) ->
  messageManager m = Some (mkEntityCacheManager (Some pm) svc2 cfg2) ->
  h !! ps = Some cs -> h !! pm = Some cm ->
  Manager_Stats m h
  = Ok (<["messages" := stats cm]> (<["sessions" := stats cs]> ∅)).
Proof.
  intros Hsm Hmm Hs Hm. unfold Manager_Stats. rewrite Hsm, Hmm.
  cbn [EntityCacheManager.GetCache cache]. rewrite Hs. cbn [bind]. rewrite Hm.
  reflexivity.
Qed.

(** X25. [Manager.Stats] has no entry before the first [Start]; after a
    successful [Start] it has exactly the entries "sessions" and "messages",
    both with zero statistics for the new caches; and it still reports both
    caches after [Stop]. *)
Theorem Manager_Stats_entries (ss ms hs : option Service) (cfg : CacheConfig)
    (m : Manager) (h : Heap) (m1 : Manager) (h1 : Heap) :
  Manager_Stats (NewManager ss ms hs cfg) h = Ok ∅ /\
  (started m = false ->
   Manager.Start m h = Ok (m1, h1, None) ->
   Manager_Stats m1 h1
     = Ok (<["messages" := zero_stats]> (<["sessions" := zero_stats]> ∅)) /\
   exists m2 h2,
     Manager.Stop m1 h1 = Ok (m2, h2, None) /\
     Manager_Stats m2 h2
       = Ok (<["messages" := zero_stats]> (<["sessions" := zero_stats]> ∅))).
Proof.
  split; [reflexivity |].
  intros Hs Hstart.
  destruct (Manager_Stop_after_Start m h m1 h1 Hs Hstart)
    as (c1 & c2 & c1' & c2' & Hh1 & HC1 & HC2 & Hst1 & Hst2 & Hps & Hpm & Hstop).
  destruct (Close_result _ _ _ HC1) as (_ & _ & _ & _ & _ & Hs1' & _).
  destruct (Close_result _ _ _ HC2) as (_ & _ & _ & _ & _ & Hs2' & _).
  destruct (Manager_Start_inv _ _ _ _ _ Hs Hstart)
    as (_ & s1 & s2 & d1 & d2 & _ & _ & _ & _ & _ & Hm1).
  assert (Hstats : forall a b,
            stats a = zero_stats -> stats b = zero_stats ->
            forall mm, sessionManager mm = sessionManager m1 ->
                       messageManager mm = messageManager m1 ->
            Manager_Stats mm (h ++ [a; b])
            = Ok (<["messages" := zero_stats]> (<["sessions" := zero_stats]> ∅))).
  { intros a b Ha Hb mm Hsm Hmm.
    assert (Hl1 : (h ++ [a; b]) !! length h = Some a).
    { rewrite lookup_app_r by lia. rewrite Nat.sub_diag. reflexivity. }
    assert (Hl2 : (h ++ [a; b]) !! S (length h) = Some b).
    { rewrite lookup_app_r by lia.
      replace (S (length h) - length h)%nat with 1%nat by lia. reflexivity. }
    rewrite Hm1 in Hsm, Hmm. cbn [sessionManager messageManager] in Hsm, Hmm.
    rewrite (Manager_Stats_two mm _ _ _ a b _ _ _ _ Hsm Hmm Hl1 Hl2).
    rewrite Ha, Hb. reflexivity. }
  split; [rewrite Hh1; apply (Hstats c1 c2 Hst1 Hst2 m1); reflexivity |].
  eexists. eexists. split; [exact Hstop |].
  apply (Hstats c1' c2' (eq_trans Hs1' Hst1) (eq_trans Hs2' Hst2)); reflexivity.
Qed.

Lemma Manager_Stats_entries_witness :
  let '(m1, h1) := sample_started in
  let '(m2, h2) := sample_stopped in
  Manager_Stats sample_manager [] = Ok ∅ /\
  Manager_Stats m1 h1
    = Ok (<["messages" := zero_stats]> (<["sessions" := zero_stats]> ∅)) /\
  Manager_Stats m2 h2
    = Ok (<["messages" := zero_stats]> (<["sessions" := zero_stats]> ∅)).
Proof.
  destruct sample_started as [m1 h1] eqn:E1.
  destruct sample_stopped as [m2 h2] eqn:E2.
  vm_compute in E1. injection E1 as <- <-.
  vm_compute in E2. injection E2 as <- <-.
  destruct (Manager_Stats_entries (Some (mkService "sessions"))
              (Some (mkService "messages")) None DefaultCacheConfig
              sample_manager []
              (fst sample_started) (snd sample_started)) as (H0 & H).
  split; [exact H0 |].
  destruct (H eq_refl eq_refl) as (H1 & m2' & h2' & HS & H2).
  split; [exact H1 |].
  vm_compute in HS. injection HS as <- <-. exact H2.
Defined.

(** ** Events composed *)

Lemma streamCache_ext (a b : streamCache) :
  config a = config b -> items a = items b -> stats a = stats b ->
  cleanup a = cleanup b -> done a = done b -> eventSub a = eventSub b ->
  eventDone a = eventDone b -> a = b.
Proof. destruct a, b. simpl. intros; subst; reflexivity. Qed.

Lemma CacheStats_ext (a b : CacheStats) :
  HitCount a = HitCount b -> MissCount a = MissCount b -> ItemCount a = ItemCount b ->
  MemoryUsage a = MemoryUsage b -> LastCleanup a = LastCleanup b -> a = b.
Proof. destruct a, b. simpl. intros; subst; reflexivity. Qed.

Lemma handleEvent_frame c t1 t2 e :
  cleanup (handleEvent c t1 t2 e) = cleanup c /\
  eventSub (handleEvent c t1 t2 e) = eventSub c /\
  HitCount (stats (handleEvent c t1 t2 e)) = HitCount (stats c) /\
  MissCount (stats (handleEvent c t1 t2 e)) = MissCount (stats c) /\
  MemoryUsage (stats (handleEvent c t1 t2 e)) = MemoryUsage (stats c) /\
  LastCleanup (stats (handleEvent c t1 t2 e)) = LastCleanup (stats c).
Proof.
  unfold handleEvent.
  destruct (String.eqb _ ""); [repeat split |].
  destruct (Type_ e); destruct (items c !! extractID (Payload e)); repeat split.
Qed.

Lemma handleEvent_lookup_self c t1 t2 e :
  items (handleEvent c t1 t2 e) !! extractID (Payload e)
  = record_after (items c !! extractID (Payload e)) t1 t2 e.
Proof.
  unfold handleEvent, record_after.
  destruct (String.eqb _ ""); [reflexivity |].
  destruct (Type_ e); destruct (items c !! extractID (Payload e)) eqn:El; simpl;
    rewrite ?lookup_insert_eq, ?lookup_delete_eq; auto.
Qed.

Lemma handleEvent_ItemCount c t1 t2 e :
  ItemCount (stats (handleEvent c t1 t2 e))
  = count_after (items c !! extractID (Payload e)) e (ItemCount (stats c)).
Proof.
  unfold handleEvent, count_after.
  destruct (String.eqb _ ""); [reflexivity |].
  destruct (Type_ e); destruct (items c !! extractID (Payload e)); reflexivity.
Qed.

Lemma incr_decr_commute n : Int64.incr (Int64.decr n) = Int64.decr (Int64.incr n).
Proof.
  unfold Int64.incr, Int64.decr.
  replace (Int64.wrap64 (n + 1) - 1) with (Int64.wrap64 (n + 1) + (-1)) by lia.
  rewrite !Int64Facts.wrap64_add_idemp. f_equal. lia.
Qed.

Lemma count_after_commute o1 o2 e1 e2 n :
  count_after o2 e2 (count_after o1 e1 n) = count_after o1 e1 (count_after o2 e2 n).
Proof.
  unfold count_after.
  destruct (String.eqb (extractID (Payload e1)) "");
    destruct (String.eqb (extractID (Payload e2)) ""); try reflexivity.
  destruct (Type_ e1), o1, (Type_ e2), o2; try reflexivity;
    first [apply incr_decr_commute | symmetry; apply incr_decr_commute].
Qed.

(** X26. Events that carry different ids commute: handling two events in
    either order, each with its own clock readings, leaves the same cache,
    index and statistics included. *)
Theorem events_on_different_ids_commute (c : streamCache) (e1 e2 : Event)
    (s1 v1 s2 v2 : Time.Time) :
  extractID (Payload e1) <> extractID (Payload e2) ->
  handleEvent (handleEvent c s1 v1 e1) s2 v2 e2
  = handleEvent (handleEvent c s2 v2 e2) s1 v1 e1.
Proof.
  intros Hne.
  destruct (handleEvent_fields c s1 v1 e1) as (Hc1 & Hd1 & He1).
  destruct (handleEvent_fields c s2 v2 e2) as (Hc2 & Hd2 & He2).
  destruct (handleEvent_fields (handleEvent c s1 v1 e1) s2 v2 e2) as (Hc12 & Hd12 & He12).
  destruct (handleEvent_fields (handleEvent c s2 v2 e2) s1 v1 e1) as (Hc21 & Hd21 & He21).
  destruct (handleEvent_frame c s1 v1 e1) as (Hk1 & Hs1 & Hh1 & Hm1 & Hu1 & Hl1).
  destruct (handleEvent_frame c s2 v2 e2) as (Hk2 & Hs2 & Hh2 & Hm2 & Hu2 & Hl2).
  destruct (handleEvent_frame (handleEvent c s1 v1 e1) s2 v2 e2)
    as (Hk12 & Hs12 & Hh12 & Hm12 & Hu12 & Hl12).
  destruct (handleEvent_frame (handleEvent c s2 v2 e2) s1 v1 e1)
    as (Hk21 & Hs21 & Hh21 & Hm21 & Hu21 & Hl21).
  apply streamCache_ext; try congruence.
  - apply map_eq. intros k.
    destruct (decide (k = extractID (Payload e1))) as [-> | Hk1'].
    + rewrite handleEvent_other_id by exact Hne.
      rewrite !handleEvent_lookup_self.
      rewrite handleEvent_other_id by exact Hne. reflexivity.
    + destruct (decide (k = extractID (Payload e2))) as [-> | Hk2'].
      * rewrite (handleEvent_other_id (handleEvent c s2 v2 e2)) by congruence.
        rewrite !handleEvent_lookup_self.
        rewrite handleEvent_other_id by congruence. reflexivity.
      * rewrite !handleEvent_other_id by assumption. reflexivity.
  - apply CacheStats_ext; try congruence.
    rewrite !handleEvent_ItemCount.
    rewrite (handleEvent_other_id c s1 v1 e1) by congruence.
    rewrite (handleEvent_other_id c s2 v2 e2) by congruence.
    apply count_after_commute.
Qed.

Lemma events_on_different_ids_commute_witness :
  handleEvent (handleEvent two_records 5000 5001 (mkEvent DeletedEvent alice))
              6000 6001 (mkEvent UpdatedEvent bob)
  = handleEvent (handleEvent two_records 6000 6001 (mkEvent UpdatedEvent bob))
                5000 5001 (mkEvent DeletedEvent alice).
Proof.
  apply (events_on_different_ids_commute two_records (mkEvent DeletedEvent alice)
           (mkEvent UpdatedEvent bob)).
  discriminate.
Defined.

(** X27. A Created (or Updated) event for an id that is not cached,
    followed by a Deleted event for the same id, restores the cache exactly,
    index and item count included. *)
Theorem create_then_delete_restores (c : streamCache) (e d : Event)
    (s1 v1 s2 v2 : Time.Time) :
  is_insert e = true ->
  Type_ d = DeletedEvent ->
  extractID (Payload d) = extractID (Payload e) ->
  items c !! extractID (Payload e) = None ->
  Int64.in_range (ItemCount (stats c)) ->
  handleEvent (handleEvent c s1 v1 e) s2 v2 d = c.
Proof.
  intros Hins Hd Hid Hnew Hr.
  destruct (handleEvent_fields c s1 v1 e) as (Hc1 & Hd1 & He1).
  destruct (handleEvent_fields (handleEvent c s1 v1 e) s2 v2 d) as (Hc12 & Hd12 & He12).
  destruct (handleEvent_frame c s1 v1 e) as (Hk1 & Hs1 & Hh1 & Hm1 & Hu1 & Hl1).
  destruct (handleEvent_frame (handleEvent c s1 v1 e) s2 v2 d)
    as (Hk12 & Hs12 & Hh12 & Hm12 & Hu12 & Hl12).
  assert (Hne : String.eqb (extractID (Payload e)) "" = false).
  { unfold is_insert in Hins. destruct (String.eqb _ ""); [| reflexivity].
    destruct (Type_ e); discriminate. }
  assert (Hty : Type_ e = CreatedEvent \/ Type_ e = UpdatedEvent).
  { unfold is_insert in Hins. destruct (Type_ e); auto; discriminate. }
  apply streamCache_ext; try congruence.
  - apply map_eq. intros k.
    destruct (decide (k = extractID (Payload d))) as [-> | Hk].
    + rewrite handleEvent_lookup_self. unfold record_after.
      rewrite Hid, Hne, Hd. symmetry. exact Hnew.
    + rewrite !handleEvent_other_id by congruence. reflexivity.
  - apply CacheStats_ext; try congruence.
    rewrite handleEvent_ItemCount, Hid, handleEvent_lookup_self, handleEvent_ItemCount.
    rewrite Hnew. unfold record_after, count_after. rewrite Hid, Hne, Hd.
    destruct Hty as [-> | ->]; unfold Int64.decr, Int64.incr;
      (replace (Int64.wrap64 (ItemCount (stats c) + 1) - 1)
         with (Int64.wrap64 (ItemCount (stats c) + 1) + (-1)) by lia);
      rewrite Int64Facts.wrap64_add_idemp;
      (replace (ItemCount (stats c) + 1 + -1) with (ItemCount (stats c)) by lia);
      apply Int64Facts.wrap64_in_range, Hr.
Qed.

Lemma create_then_delete_restores_witness :
  handleEvent
    (handleEvent two_records 5000 5001 (mkEvent CreatedEvent (TestData "c" "Carol" 41)))
    6000 6001 (mkEvent DeletedEvent (TestData "c" "" 0))
  = two_records.
Proof.
  apply create_then_delete_restores;
    [reflexivity | reflexivity | reflexivity | reflexivity |].
  vm_compute. split; discriminate.
Defined.
